(** * JairoJobs query engine: search, filter, pagination and detail lookup

    A shallow embedding of the two revisions of [JobsService.js] found in
    the repository:

    - [src/services/JobsService.js] (module [JobsService] below): jobs carry
      their company as a plain string and [searchAndListJobs] always
      resolves;
    - the revision stored after the planning notes in
      [src/migrations/005_add_companies_foreign_key.sql], lines 688-844
      (module [JobsServiceRev] below): jobs carry a company object, and
      [searchAndListJobs] rejects with a 404 on an empty result and on a
      page past the last one.

    Both revisions share, word for word, the filter chain and the pagination
    arithmetic; these are embedded once, in [Section Engine], under the names
    of the source's local constants.

    Conventions of the embedding.
    - JavaScript numbers are integers ([Z]); the quotient [total / limit] is
      the only place where a non-integer, [Infinity] or [NaN] can appear, and
      [Math.ceil] of it is given by [ceilDiv] with the two non-finite
      results kept apart.  Negative zero is identified with zero.
    - Strings are [string]; [toLowerCase] maps the letters A-Z to a-z and
      leaves every other character alone.
    - Reading a data file is the only effect; it is threaded through a small
      state monad over the three data files so that "nothing is written" is
      a statement about the final state.  Console output is not modelled.
    - The outer [catch (e)] of both operations is unreachable on records
      that carry the fields they are declared with, and is not modelled. *)

From Stdlib Require Import ZArith List String Ascii Bool Lia.
Import ListNotations.

Local Open Scope Z_scope.

(** ** JavaScript values *)

(** An optional string parameter ([q], [location]): omitted, [null], or a
    string. *)
Inductive Param : Type :=
| undefined
| null
| str (s : string).

(** Truthiness, as tested by [if (q)]: only a non-empty string passes. *)
Definition truthy (v : Param) : bool :=
  match v with
  | str EmptyString => false
  | str (String _ _) => true
  | undefined | null => false
  end.

(** The result of [Math.ceil(total / limit)]. *)
Inductive Number : Type :=
| Int (z : Z)
| Infinity
| NaN.

(** [a > b] on numbers: any comparison with [NaN] is false. *)
Definition gt (a b : Number) : bool :=
  match a, b with
  | Int x, Int y => y <? x
  | Infinity, Int _ => true
  | _, _ => false
  end.

(** [Math.ceil(a / b)] for an array length [a] (so [0 <= a]) and an
    integer [b]. *)
Definition ceilDiv (a b : Z) : Number :=
  if b =? 0 then (if a =? 0 then NaN else Infinity)
  else Int (- ((- a) / b)).

(** ** Strings *)

Definition lowerChar (c : ascii) : ascii :=
  let n := nat_of_ascii c in
  if (Nat.leb 65 n && Nat.leb n 90)%bool then ascii_of_nat (n + 32) else c.

(** [String.prototype.toLowerCase]. *)
Fixpoint toLowerCase (s : string) : string :=
  match s with
  | EmptyString => EmptyString
  | String c s' => String (lowerChar c) (toLowerCase s')
  end.

(** [t] is a prefix of [s] ([s.startsWith(t)]). *)
Fixpoint startsWith (s t : string) : bool :=
  match t, s with
  | EmptyString, _ => true
  | String _ _, EmptyString => false
  | String b t', String a s' => (Ascii.eqb a b && startsWith s' t')%bool
  end.

(** [String.prototype.includes]: [t] occurs in [s] at some position. *)
Fixpoint includes (s t : string) : bool :=
  (startsWith s t ||
   match s with
   | EmptyString => false
   | String _ s' => includes s' t
   end)%bool.

(** The declarative reading of "[t] is a substring of [s]". *)
Definition Substring (t s : string) : Prop :=
  exists pre post : string, s = (pre ++ t ++ post)%string.

(** ** Arrays *)

(** The clamping of a relative index by [Array.prototype.slice]: a negative
    index counts from the end, and both are clamped to [0 .. len]. *)
Definition relativeIndex (len i : Z) : Z :=
  if i <? 0 then Z.max (len + i) 0 else Z.min i len.

(** [Array.prototype.slice(start, end)]. *)
Definition slice {A : Type} (l : list A) (start end_ : Z) : list A :=
  let len := Z.of_nat (List.length l) in
  let k := relativeIndex len start in
  let final := relativeIndex len end_ in
  firstn (Z.to_nat (final - k)) (skipn (Z.to_nat k) l).

(** [l1] is [l2] with some elements left out, the others in their order. *)
Inductive Subseq {A : Type} : list A -> list A -> Prop :=
| Subseq_nil : Subseq [] []
| Subseq_skip : forall x l1 l2, Subseq l1 l2 -> Subseq l1 (x :: l2)
| Subseq_keep : forall x l1 l2, Subseq l1 l2 -> Subseq (x :: l1) (x :: l2).

(** ** Records

    The data files are not part of the sources; the record shapes follow
    the field accesses of the code and the data model of the
    specification. *)

Inductive JobType : Type := full_time | part_time | contract | internship.
Inductive RemoteOption : Type := on_site | hybrid | remote.
Inductive ExperienceLevel : Type := entry | mid | senior.

Module Company.
(** Modelled from the spec: the embedded company of a job (section 3). *)
Record t : Type := {
  id : string;
  name : string;
  logo : option string;
  verified : bool
}.
End Company.

Module Salary.
(** Modelled from the spec: the salary block of a job detail (section 3). *)
Record t : Type := {
  min : Z;
  max : Z;
  currency : string;
  period : string
}.
End Salary.

Module Job.
(** Modelled from the spec: a job summary (section 3).  [C] is the shape of
    the [company] field: a string in [src/services/JobsService.js], a
    [Company.t] in the other revision. *)
Record t (C : Type) : Type := {
  id : string;
  title : string;
  company : C;
  location : string;
  type : JobType;
  remoteOption : RemoteOption;
  postedAt : string
}.
Arguments id {C} _.
Arguments title {C} _.
Arguments company {C} _.
Arguments location {C} _.
Arguments type {C} _.
Arguments remoteOption {C} _.
Arguments postedAt {C} _.
End Job.

Module Detail.
(** Modelled from the spec: a job detail (section 3). *)
Record t (C : Type) : Type := {
  id : string;
  title : string;
  company : C;
  location : string;
  type : JobType;
  remoteOption : RemoteOption;
  postedAt : string;
  experienceLevel : ExperienceLevel;
  salary : option Salary.t;
  description : string;
  requirements : list string;
  responsibilities : list string;
  benefits : list string;
  tags : list string;
  applicationDeadline : option string;
  applicants : Z;
  featured : bool;
  active : bool
}.
Arguments id {C} _.
End Detail.

Module Pagination.
(** The object literal [{ total, page, limit, totalPages }]. *)
Record t : Type := {
  total : Z;
  page : Z;
  limit : Z;
  totalPages : Number
}.
End Pagination.

Module Payload.
(** The object literal [{ jobs: paginatedJobs, pagination }]. *)
Record t (J : Type) : Type := {
  jobs : list J;
  pagination : Pagination.t
}.
Arguments jobs {J} _.
Arguments pagination {J} _.
End Payload.

(** ** Responses and promises *)

(** The first argument of [Service.rejectResponse]: a bare message in
    [src/services/JobsService.js], an object [{ message, code }] or
    [{ message }] in the other revision. *)
Inductive ErrorBody : Type :=
| ErrorText (message : string)
| ErrorObject (message : string) (code : option Z).

Definition message (e : ErrorBody) : string :=
  match e with
  | ErrorText m => m
  | ErrorObject m _ => m
  end.

(** Modelled from the spec: [Service.successResponse] and
    [Service.rejectResponse]; [./Service] is not among the sources, so the
    two helpers only record the arguments they are called with (section 6:
    a payload on success, an error object with a status on failure). *)
Inductive Response (P : Type) : Type :=
| successResponse (payload : P)
| rejectResponse (error : ErrorBody) (code : Z).
Arguments successResponse {P} _.
Arguments rejectResponse {P} _ _.

(** How the promise returned by an operation settles. *)
Inductive Settled (P : Type) : Type :=
| resolve (r : Response P)
| reject (r : Response P).
Arguments resolve {P} _.
Arguments reject {P} _.

(** A NotFound outcome carrying message [m]: the promise is rejected with
    status 404 and an error whose message is [m]. *)
Definition NotFound {P : Type} (m : string) (s : Settled P) : Prop :=
  exists e, s = reject (rejectResponse e 404) /\ message e = m.

(** ** The data files and the read effect *)

(** What [JSON.parse(fs.readFileSync(path, 'utf8'))] yields: an exception
    (missing or malformed file), or a document whose record array may be
    missing. *)
Inductive DataFile (A : Type) : Type :=
| Unreadable
| Document (records : option (list A)).
Arguments Unreadable {A}.
Arguments Document {A} _.

(** The directory [data/]. *)
Record FileSystem (C : Type) : Type := {
  jobs_json : DataFile (Job.t C);
  job_summaries_json : DataFile (Job.t C);
  job_details_json : DataFile (Detail.t C)
}.
Arguments jobs_json {C} _.
Arguments job_summaries_json {C} _.
Arguments job_details_json {C} _.

(** Computations that may read and write the data files. *)
Definition IO (C A : Type) : Type := FileSystem C -> A * FileSystem C.

Definition ret {C A : Type} (a : A) : IO C A := fun fs => (a, fs).

Definition bind {C A B : Type} (m : IO C A) (k : A -> IO C B) : IO C B :=
  fun fs => let (a, fs') := m fs in k a fs'.

Notation "x <- m ;; k" := (bind m (fun x => k))
  (at level 61, m at next level, right associativity).

(** The guarded load that opens both operations:
    [try { data = JSON.parse(readFileSync(path)); xs = data.key || [] }
     catch (error) { xs = [] }]. *)
Definition loadRecords {C A : Type} (file : FileSystem C -> DataFile A)
  : IO C (list A) :=
  fun fs =>
    (match file fs with
     | Unreadable => []
     | Document None => []
     | Document (Some records) => records
     end, fs).

(** A destructuring default ([page = 1], [limit = 10]): it applies when the
    property is not supplied. *)
Definition default (d : Z) (v : option Z) : Z :=
  match v with
  | Some z => z
  | None => d
  end.

(** The string held by a parameter that passed the truthiness test. *)
Definition text (v : Param) : string :=
  match v with
  | str s => s
  | undefined | null => EmptyString
  end.

(** ** The filter chain and the pagination arithmetic

    Lines 82-113 of [src/services/JobsService.js]; lines 770-808 of the other
    revision.  The two differ in one expression: [job.company] against
    [job.company.name]; [companyName] stands for it. *)

Section Engine.

Context {C : Type} (companyName : C -> string).

(** The test of the [q] filter. *)
Definition matchesQuery (query : string) (job : Job.t C) : bool :=
  (includes (toLowerCase (Job.title job)) query
   || includes (toLowerCase (companyName (Job.company job))) query
   || includes (toLowerCase (Job.location job)) query)%bool.

(** The test of the [location] filter. *)
Definition matchesLocation (locationQuery : string) (job : Job.t C) : bool :=
  includes (toLowerCase (Job.location job)) locationQuery.

Definition filteredJobs (q location : Param) (allJobs : list (Job.t C))
  : list (Job.t C) :=
  let filteredJobs := allJobs in
  let filteredJobs :=
    if truthy q
    then let query := toLowerCase (text q) in
         filter (matchesQuery query) filteredJobs
    else filteredJobs in
  let filteredJobs :=
    if truthy location
    then let locationQuery := toLowerCase (text location) in
         filter (matchesLocation locationQuery) filteredJobs
    else filteredJobs in
  filteredJobs.

Definition total (filteredJobs : list (Job.t C)) : Z :=
  Z.of_nat (List.length filteredJobs).

Definition totalPages (filteredJobs : list (Job.t C)) (limit : Z) : Number :=
  ceilDiv (total filteredJobs) limit.

Definition startIndex (page limit : Z) : Z := (page - 1) * limit.

Definition endIndex (page limit : Z) : Z := startIndex page limit + limit.

Definition paginatedJobs (filteredJobs : list (Job.t C)) (page limit : Z)
  : list (Job.t C) :=
  slice filteredJobs (startIndex page limit) (endIndex page limit).

Definition pagination (filteredJobs : list (Job.t C)) (page limit : Z)
  : Pagination.t :=
  {| Pagination.total := total filteredJobs;
     Pagination.page := page;
     Pagination.limit := limit;
     Pagination.totalPages := totalPages filteredJobs limit |}.

End Engine.

(** ** [src/services/JobsService.js] *)

Module JobsService.

Definition getJobDetails (jobId : string)
  : IO string (Settled (Detail.t string)) :=
  jobDetails <- loadRecords job_details_json ;;
  match find (fun job => (Detail.id job =? jobId)%string) jobDetails with
  | None => ret (reject (rejectResponse (ErrorText "Job not found") 404))
  | Some jobDetail => ret (resolve (successResponse jobDetail))
  end.

Definition searchAndListJobs (q location : Param) (page limit : option Z)
  : IO string (Settled (Payload.t (Job.t string))) :=
  let page := default 1 page in
  let limit := default 10 limit in
  allJobs <- loadRecords jobs_json ;;
  let filteredJobs := filteredJobs (fun company => company) q location allJobs in
  let paginatedJobs := paginatedJobs filteredJobs page limit in
  let pagination := pagination filteredJobs page limit in
  ret (resolve (successResponse
         {| Payload.jobs := paginatedJobs;
            Payload.pagination := pagination |})).

End JobsService.

(** ** The revision with the 404 policy
    ([src/migrations/005_add_companies_foreign_key.sql], lines 688-844) *)

Module JobsServiceRev.

Definition getJobDetails (jobId : string)
  : IO Company.t (Settled (Detail.t Company.t)) :=
  jobDetails <- loadRecords job_details_json ;;
  match find (fun job => (Detail.id job =? jobId)%string) jobDetails with
  | None =>
      ret (reject (rejectResponse
                     (ErrorObject "Job not found" (Some 404)) 404))
  | Some jobDetail => ret (resolve (successResponse jobDetail))
  end.

Definition searchAndListJobs (q location : Param) (page limit : option Z)
  : IO Company.t (Settled (Payload.t (Job.t Company.t))) :=
  let page := default 1 page in
  let limit := default 10 limit in
  allJobs <- loadRecords job_summaries_json ;;
  let filteredJobs := filteredJobs Company.name q location allJobs in
  let totalPages := totalPages filteredJobs limit in
  let paginatedJobs := paginatedJobs filteredJobs page limit in
  let pagination := pagination filteredJobs page limit in
  if (List.length filteredJobs =? 0)%nat then
    ret (reject (rejectResponse (ErrorObject "No jobs found" None) 404))
  else if (gt (Int page) totalPages && gt totalPages (Int 0))%bool then
    ret (reject (rejectResponse
                   (ErrorObject "Page number exceeds available pages" None)
                   404))
  else
    ret (resolve (successResponse
           {| Payload.jobs := paginatedJobs;
              Payload.pagination := pagination |})).

End JobsServiceRev.

(** The collection an operation works on once its guarded load is done. *)
Definition loaded {C A : Type} (file : FileSystem C -> DataFile A)
  (fs : FileSystem C) : list A :=
  fst (loadRecords file fs).

(** ** Sample data *)

Module Sample.

Local Open Scope string_scope.

Definition techCorp : Company.t :=
  {| Company.id := "comp-001"; Company.name := "TechCorp Solutions";
     Company.logo := None; Company.verified := true |}.

Definition startupHub : Company.t :=
  {| Company.id := "comp-002"; Company.name := "StartupHub";
     Company.logo := None; Company.verified := true |}.

Definition job {C : Type} (id title : string) (company : C)
  (location : string) : Job.t C :=
  {| Job.id := id; Job.title := title; Job.company := company;
     Job.location := location; Job.type := full_time;
     Job.remoteOption := hybrid; Job.postedAt := "2025-01-27T00:00:00Z" |}.

Definition engineer : Job.t Company.t :=
  job "123e4567-e89b-12d3-a456-426614174000" "Senior Engineer" techCorp
      "San Francisco, CA".

Definition designer : Job.t Company.t :=
  job "234f5678-f89c-23e4-b567-537725285111" "Product Designer" startupHub
      "New York, NY".

Definition analyst : Job.t Company.t :=
  job "34567890-1234-5678-9abc-def012345678" "Data Analyst" startupHub
      "San Jose, CA".

Definition summaries : list (Job.t Company.t) := [engineer; designer; analyst].

Definition detail {C : Type} (id title : string) (company : C)
  : Detail.t C :=
  {| Detail.id := id; Detail.title := title; Detail.company := company;
     Detail.location := "San Francisco, CA"; Detail.type := full_time;
     Detail.remoteOption := hybrid;
     Detail.postedAt := "2025-01-27T00:00:00Z";
     Detail.experienceLevel := senior; Detail.salary := None;
     Detail.description := "Build the platform.";
     Detail.requirements := ["Node.js"]; Detail.responsibilities := [];
     Detail.benefits := []; Detail.tags := ["backend"];
     Detail.applicationDeadline := None; Detail.applicants := 12%Z;
     Detail.featured := false; Detail.active := true |}.

Definition files : FileSystem Company.t :=
  {| jobs_json := Unreadable;
     job_summaries_json := Document (Some summaries);
     job_details_json :=
       Document (Some [detail "123e4567-e89b-12d3-a456-426614174000"
                              "Senior Engineer" techCorp;
                       detail "234f5678-f89c-23e4-b567-537725285111"
                              "Product Designer" startupHub]) |}.

(** The same directory as [src/services/JobsService.js] expects it: the
    company of a job is its name. *)
Definition legacySummaries : list (Job.t string) :=
  [job "1" "Senior Engineer" "TechCorp Solutions" "San Francisco, CA";
   job "2" "Product Designer" "StartupHub" "New York, NY"].

Definition legacyFiles : FileSystem string :=
  {| jobs_json := Document (Some legacySummaries);
     job_summaries_json := Unreadable;
     job_details_json :=
       Document (Some [detail "1" "Senior Engineer" "TechCorp Solutions"]) |}.

(** A directory whose files cannot be read. *)
Definition broken {C : Type} : FileSystem C :=
  {| jobs_json := Unreadable;
     job_summaries_json := Unreadable;
     job_details_json := Unreadable |}.

End Sample.

(** ** What the filters are meant to select *)

(** The lowercased term occurs in the lowercased title, company name or
    location of the job. *)
Definition QueryMatches {C : Type} (companyName : C -> string) (q : string)
  (job : Job.t C) : Prop :=
  Substring (toLowerCase q) (toLowerCase (Job.title job))
  \/ Substring (toLowerCase q) (toLowerCase (companyName (Job.company job)))
  \/ Substring (toLowerCase q) (toLowerCase (Job.location job)).

(** The lowercased term occurs in the lowercased location of the job. *)
Definition LocationMatches {C : Type} (location : string) (job : Job.t C)
  : Prop :=
  Substring (toLowerCase location) (toLowerCase (Job.location job)).

(** The pages [1 .. n]. *)
Definition pages (n : Z) : list Z :=
  map Z.of_nat (seq 1 (Z.to_nat n)).

(** ** What a page of results is meant to be *)

(** [r] is page [p] of the filtered sequence [fj] for page size [l]: its
    jobs are the window that starts at index [(p - 1) * l] and is [l] long
    (as a sublist, and element by element), and its descriptor carries the
    length of [fj], the ceiling of [length fj / l] (which is 0 for an empty
    [fj]), and [p] and [l] as they were used. *)
Definition Paginated {C : Type} (fj : list (Job.t C)) (p l : Z)
  (r : Payload.t (Job.t C)) : Prop :=
  Payload.jobs r = firstn (Z.to_nat l) (skipn (Z.to_nat ((p - 1) * l)) fj)
  /\ (forall i : nat,
        nth_error (Payload.jobs r) i =
        if Z.of_nat i <? l
        then nth_error fj (Z.to_nat ((p - 1) * l) + i)
        else None)
  /\ Pagination.total (Payload.pagination r) = Z.of_nat (List.length fj)
  /\ (exists n,
        Pagination.totalPages (Payload.pagination r) = Int n
        /\ (n - 1) * l < Z.of_nat (List.length fj) <= n * l
        /\ (List.length fj = 0%nat -> n = 0))
  /\ Pagination.page (Payload.pagination r) = p
  /\ Pagination.limit (Payload.pagination r) = l.

(** The jobs delivered by a settled search: those of the payload when it
    resolved, none when it was rejected. *)
Definition deliveredJobs {J : Type} (s : Settled (Payload.t J)) : list J :=
  match s with
  | resolve (successResponse r) => Payload.jobs r
  | _ => []
  end.

(** [a <= b] on numbers, for "the page is not past the last one". *)
Definition le (a b : Number) : bool :=
  match a, b with
  | Int x, Int y => x <=? y
  | Int _, Infinity => true
  | Infinity, Infinity => true
  | _, _ => false
  end.

(** ** The two shapes of a job

    The same job as [src/services/JobsService.js] reads it: the company
    object replaced by its name, every other field kept. *)
Definition companyAsString (job : Job.t Company.t) : Job.t string :=
  {| Job.id := Job.id job;
     Job.title := Job.title job;
     Job.company := Company.name (Job.company job);
     Job.location := Job.location job;
     Job.type := Job.type job;
     Job.remoteOption := Job.remoteOption job;
     Job.postedAt := Job.postedAt job |}.

(** ** The relational store: tables, constraints and the company-id
    migration

    The [jobs] table and its constraints are created by the migration found
    in [src/unnamed/part_002]; the [companies] table by the one in
    [src/unnamed/part_003]; [src/migrations/003_verify_mock_data.sql] checks
    the inserted rows and lines 1-62 of
    [src/migrations/005_add_companies_foreign_key.sql] re-point the company
    ids before adding the foreign key.

    A nullable column is an [option]; a timestamp is an integer; a table is
    the list of its rows (the order of the list carries no meaning).  A
    condition evaluates to TRUE, FALSE or NULL ([option bool]): a [WHERE]
    clause keeps the rows on which it is TRUE, a [CHECK] constraint accepts
    the rows on which it is not FALSE. *)

(** A [JSONB] value. *)
#[local] Unset Elimination Schemes.
Inductive Jsonb : Type :=
| JNull
| JBool (b : bool)
| JNumber (n : Z)
| JString (s : string)
| JArray (items : list Jsonb)
| JObject (members : list (string * Jsonb)).
#[local] Set Elimination Schemes.

Module JobRow.
(** A row of [jobs] ([CREATE TABLE jobs], part_002 lines 33-72). *)
Record t : Type := {
  id : string;
  title : string;
  description : string;
  company : string;
  company_id : option string;
  company_logo_url : option string;
  location : option string;
  type : option JobType;
  experience_level : option ExperienceLevel;
  remote_option : option RemoteOption;
  salary : option Jsonb;
  requirements : option (list string);
  responsibilities : option (list string);
  benefits : option (list string);
  tags : option (list string);
  posted_at : option Z;
  application_deadline : option Z;
  applicants : option Z;
  featured : option bool;
  active : option bool;
  created_at : option Z;
  updated_at : option Z
}.

(** [SET company_id = v]. *)
Definition set_company_id (v : option string) (row : t) : t :=
  {| id := id row; title := title row; description := description row;
     company := company row; company_id := v;
     company_logo_url := company_logo_url row; location := location row;
     type := type row; experience_level := experience_level row;
     remote_option := remote_option row; salary := salary row;
     requirements := requirements row;
     responsibilities := responsibilities row; benefits := benefits row;
     tags := tags row; posted_at := posted_at row;
     application_deadline := application_deadline row;
     applicants := applicants row; featured := featured row;
     active := active row; created_at := created_at row;
     updated_at := updated_at row |}.

(** [NEW.updated_at = v]. *)
Definition set_updated_at (v : option Z) (row : t) : t :=
  {| id := id row; title := title row; description := description row;
     company := company row; company_id := company_id row;
     company_logo_url := company_logo_url row; location := location row;
     type := type row; experience_level := experience_level row;
     remote_option := remote_option row; salary := salary row;
     requirements := requirements row;
     responsibilities := responsibilities row; benefits := benefits row;
     tags := tags row; posted_at := posted_at row;
     application_deadline := application_deadline row;
     applicants := applicants row; featured := featured row;
     active := active row; created_at := created_at row;
     updated_at := v |}.
End JobRow.

Module CompanyRow.
(** A row of [companies] ([CREATE TABLE companies], part_003 lines 5-19). *)
Record t : Type := {
  id : string;
  name : string;
  logo : option string;
  description : option string;
  website : option string;
  industry : option string;
  size : option string;
  founded : option Z;
  headquarters : option string;
  verified : option bool;
  featured : option bool;
  created_at : option Z;
  updated_at : option Z
}.
End CompanyRow.

(** [a AND b] in three-valued logic. *)
Definition sql_and (a b : option bool) : option bool :=
  match a, b with
  | Some false, _ | _, Some false => Some false
  | Some true, Some true => Some true
  | _, _ => None
  end.

(** [a OR b] in three-valued logic. *)
Definition sql_or (a b : option bool) : option bool :=
  match a, b with
  | Some true, _ | _, Some true => Some true
  | Some false, Some false => Some false
  | _, _ => None
  end.

(** [NOT a] in three-valued logic. *)
Definition sql_not (a : option bool) : option bool :=
  option_map negb a.

(** [v IS NULL]. *)
Definition is_null {A : Type} (v : option A) : option bool :=
  match v with
  | None => Some true
  | Some _ => Some false
  end.

(** [v IN (s1, ..., sn)] for string literals. *)
Definition sql_in (v : option string) (literals : list string)
  : option bool :=
  option_map (fun s => existsb (String.eqb s) literals) v.

(** [v LIKE '%needle%'] on a column that is [NOT NULL], for a needle
    without wildcard characters: [v] contains the needle, case
    sensitively. *)
Definition like_contains (v needle : string) : option bool :=
  Some (includes v needle).

(** A [WHERE] clause keeps a row when its condition is TRUE. *)
Definition where_true (c : option bool) : bool :=
  match c with
  | Some true => true
  | _ => false
  end.

(** A [CHECK] constraint accepts a row unless its condition is FALSE. *)
Definition check_accepts (c : option bool) : bool :=
  match c with
  | Some false => false
  | _ => true
  end.

(** The trigger function [update_jobs_updated_at] (part_002 lines
    133-139): [NEW.updated_at = CURRENT_TIMESTAMP; RETURN NEW]. *)
Definition update_jobs_updated_at (current_timestamp : Z) (NEW : JobRow.t)
  : JobRow.t :=
  JobRow.set_updated_at (Some current_timestamp) NEW.

(** [UPDATE jobs SET ... WHERE condition], with the [BEFORE UPDATE ... FOR
    EACH ROW] trigger of part_002 lines 142-146 applied to every row the
    statement updates. *)
Definition update_jobs (current_timestamp : Z) (set : JobRow.t -> JobRow.t)
  (condition : JobRow.t -> option bool) (jobs : list JobRow.t)
  : list JobRow.t :=
  map (fun row =>
         if where_true (condition row)
         then update_jobs_updated_at current_timestamp (set row)
         else row)
      jobs.

(** The ids re-pointed by the migration. *)
Definition invalid_company_ids : list string :=
  ["comp-004"; "comp-005"; "comp-006"; "comp-007"; "comp-008"]%string.

(** Step 1 of [005_add_companies_foreign_key.sql] (lines 5-25): four
    [UPDATE] statements, run in this order at the times [t1] to [t4]. *)
Definition remap_company_ids (t1 t2 t3 t4 : Z) (jobs : list JobRow.t)
  : list JobRow.t :=
  let jobs :=
    update_jobs t1 (JobRow.set_company_id (Some "comp-001"%string))
      (fun row => sql_and (sql_in (JobRow.company_id row) invalid_company_ids)
                          (like_contains (JobRow.company row) "TechCorp"))
      jobs in
  let jobs :=
    update_jobs t2 (JobRow.set_company_id (Some "comp-002"%string))
      (fun row => sql_and (sql_in (JobRow.company_id row) invalid_company_ids)
                          (like_contains (JobRow.company row) "StartupHub"))
      jobs in
  let jobs :=
    update_jobs t3 (JobRow.set_company_id (Some "comp-003"%string))
      (fun row => sql_and (sql_in (JobRow.company_id row) invalid_company_ids)
                          (like_contains (JobRow.company row) "Global"))
      jobs in
  update_jobs t4 (JobRow.set_company_id (Some "comp-001"%string))
    (fun row => sql_in (JobRow.company_id row) invalid_company_ids)
    jobs.

(** The foreign key [fk_jobs_company_id] (step 2, lines 27-33): a row is
    accepted when its [company_id] is NULL or the id of a company. *)
Definition fk_jobs_company_id (companies : list CompanyRow.t)
  (row : JobRow.t) : bool :=
  match JobRow.company_id row with
  | None => true
  | Some c => existsb (fun company => (CompanyRow.id company =? c)%string)
                      companies
  end.

(** [jobs j LEFT JOIN companies c ON j.company_id = c.id]. *)
Definition left_join_companies (jobs : list JobRow.t)
  (companies : list CompanyRow.t)
  : list (JobRow.t * option CompanyRow.t) :=
  flat_map
    (fun j =>
       match filter (fun c =>
                       where_true
                         (option_map
                            (fun cid => (cid =? CompanyRow.id c)%string)
                            (JobRow.company_id j)))
                    companies with
       | [] => [(j, None)]
       | matched => map (fun c => (j, Some c)) matched
       end)
    jobs.

(** The report of step 4 (lines 54-62):
    [(total_jobs, valid_references, invalid_references)]. *)
Definition foreign_key_validation (jobs : list JobRow.t)
  (companies : list CompanyRow.t) : nat * nat * nat :=
  let joined :=
    filter (fun jc => where_true
                        (sql_not (is_null (JobRow.company_id (fst jc)))))
           (left_join_companies jobs companies) in
  (List.length joined,
   List.length (filter (fun jc => where_true
                                    (sql_not (is_null (snd jc)))) joined),
   List.length (filter (fun jc => where_true (is_null (snd jc))) joined)).

(** One of [a-zA-Z0-9]. *)
Definition is_alnum (c : ascii) : bool :=
  let n := nat_of_ascii c in
  ((Nat.leb 97 n && Nat.leb n 122)
   || (Nat.leb 65 n && Nat.leb n 90)
   || (Nat.leb 48 n && Nat.leb n 57))%bool.

Fixpoint all_alnum (s : string) : bool :=
  match s with
  | EmptyString => true
  | String c s' => (is_alnum c && all_alnum s')%bool
  end.

(** [s ~ '^comp-[a-zA-Z0-9]+$']. *)
Definition matches_company_id_pattern (s : string) : bool :=
  match s with
  | String "c" (String "o" (String "m" (String "p" (String "-"
      (String c rest))))) => all_alnum (String c rest)
  | _ => false
  end.

(** [chk_jobs_company_id_pattern] (part_002 lines 76-77). *)
Definition chk_jobs_company_id_pattern (row : JobRow.t) : bool :=
  check_accepts
    (sql_or (is_null (JobRow.company_id row))
            (option_map matches_company_id_pattern (JobRow.company_id row))).

(** [chk_jobs_deadline_valid] (part_002 lines 88-89). *)
Definition chk_jobs_deadline_valid (row : JobRow.t) : bool :=
  check_accepts
    (sql_or (is_null (JobRow.application_deadline row))
       (sql_or (is_null (JobRow.posted_at row))
          (match JobRow.application_deadline row, JobRow.posted_at row with
           | Some d, Some p => Some (p <? d)
           | _, _ => None
           end))).

(** Check 3 of [003_verify_mock_data.sql] (lines 25-34, and 139-140 of the
    summary): the number of rows with
    [company_id IS NOT NULL AND company_id !~ '^comp-[a-zA-Z0-9]+$']. *)
Definition company_id_errors (jobs : list JobRow.t) : nat :=
  List.length
    (filter (fun row =>
               where_true
                 (sql_and (sql_not (is_null (JobRow.company_id row)))
                    (sql_not (option_map matches_company_id_pattern
                                (JobRow.company_id row)))))
            jobs).

(** Check 9 of [003_verify_mock_data.sql] (lines 99-108, and 159-160 of the
    summary): the number of rows with
    [application_deadline <= posted_at]. *)
Definition date_errors (jobs : list JobRow.t) : nat :=
  List.length
    (filter (fun row =>
               where_true
                 (match JobRow.application_deadline row,
                        JobRow.posted_at row with
                  | Some d, Some p => Some (d <=? p)
                  | _, _ => None
                  end))
            jobs).

(** [chk_jobs_applicants_non_negative] (part_002 lines 91-92). *)
Definition chk_jobs_applicants_non_negative (row : JobRow.t) : bool :=
  check_accepts (option_map (fun a => 0 <=? a) (JobRow.applicants row)).

(** What the four statements of step 1 are meant to do to one row: a row
    whose [company_id] is one of the five invalid ids is re-pointed by the
    first rule its company name falls under, and stamped with the time of
    that statement; any other row is left alone. *)
Definition remapped (t1 t2 t3 t4 : Z) (row : JobRow.t) : JobRow.t :=
  let repoint t c :=
    update_jobs_updated_at t (JobRow.set_company_id (Some c) row) in
  match JobRow.company_id row with
  | None => row
  | Some c =>
      if existsb (String.eqb c) invalid_company_ids then
        if includes (JobRow.company row) "TechCorp" then
          repoint t1 "comp-001"%string
        else if includes (JobRow.company row) "StartupHub" then
          repoint t2 "comp-002"%string
        else if includes (JobRow.company row) "Global" then
          repoint t3 "comp-003"%string
        else repoint t4 "comp-001"%string
      else row
  end.

(** Two rows agree on every column but [company_id] and [updated_at]. *)
Definition same_other_columns (a b : JobRow.t) : Prop :=
  JobRow.set_company_id None (JobRow.set_updated_at None a) =
  JobRow.set_company_id None (JobRow.set_updated_at None b).

Module SampleRows.

Local Open Scope string_scope.

Definition row (id company : string) (company_id : option string)
  : JobRow.t :=
  {| JobRow.id := id; JobRow.title := "Senior Engineer";
     JobRow.description := "Build the platform.";
     JobRow.company := company; JobRow.company_id := company_id;
     JobRow.company_logo_url := None;
     JobRow.location := Some "San Francisco, CA";
     JobRow.type := Some full_time;
     JobRow.experience_level := Some senior;
     JobRow.remote_option := Some hybrid; JobRow.salary := None;
     JobRow.requirements := Some ["Node.js"];
     JobRow.responsibilities := Some ["Ship"];
     JobRow.benefits := Some ["Health"]; JobRow.tags := Some ["backend"];
     JobRow.posted_at := Some 100%Z;
     JobRow.application_deadline := Some 200%Z;
     JobRow.applicants := Some 0%Z; JobRow.featured := Some false;
     JobRow.active := Some true; JobRow.created_at := Some 90%Z;
     JobRow.updated_at := Some 90%Z |}.

Definition jobs : list JobRow.t :=
  [row "123e4567-e89b-12d3-a456-426614174000" "TechCorp Solutions"
       (Some "comp-001");
   row "234f5678-f89c-23e4-b567-537725285111" "StartupHub Global"
       (Some "comp-005");
   row "34567890-1234-5678-9abc-def012345678" "Acme"
       (Some "comp-008");
   row "45678901-2345-6789-abcd-ef0123456789" "Freelance" None].

Definition company (id name : string) : CompanyRow.t :=
  {| CompanyRow.id := id; CompanyRow.name := name;
     CompanyRow.logo := None; CompanyRow.description := None;
     CompanyRow.website := None; CompanyRow.industry := Some "technology";
     CompanyRow.size := Some "large"; CompanyRow.founded := Some 2010%Z;
     CompanyRow.headquarters := None; CompanyRow.verified := Some true;
     CompanyRow.featured := Some false; CompanyRow.created_at := Some 50%Z;
     CompanyRow.updated_at := Some 50%Z |}.

(** The three companies inserted by part_003 (lines 31-75), by id and
    name. *)
Definition companies : list CompanyRow.t :=
  [company "comp-001" "TechCorp Solutions";
   company "comp-002" "StartupHub";
   company "comp-003" "Global Health Systems"].

End SampleRows.

(** * Properties *)

(** ** Strings *)

Lemma startsWith_spec (s t : string) :
  startsWith s t = true <-> exists post, s = (t ++ post)%string.
Proof.
  revert s; induction t as [|b t IH]; intros s.
  - split; [intros _; now exists s | intros _; now destruct s].
  - destruct s as [|a s].
    + split; [discriminate | intros [post H]; discriminate].
    + cbn [startsWith]. rewrite andb_true_iff, Ascii.eqb_eq, IH. split.
      * intros [-> [post ->]]. now exists post.
      * intros [post H]. injection H as -> ->. split; [reflexivity | now exists post].
Qed.

Lemma includes_spec (s t : string) :
  includes s t = true <-> Substring t s.
Proof.
  unfold Substring. induction s as [|a s IH].
  - cbn [includes]. rewrite orb_false_r, startsWith_spec. split.
    + intros [post H]. now exists EmptyString, post.
    + intros [pre [post H]]. destruct pre; [now exists post | discriminate].
  - cbn [includes]. rewrite orb_true_iff, startsWith_spec, IH. split.
    + intros [[post H] | [pre [post H]]].
      * now exists EmptyString, post.
      * exists (String a pre), post. simpl. now rewrite H.
    + intros [pre [post H]]. destruct pre as [|c pre].
      * left. now exists post.
      * right. simpl in H. injection H as _ H. now exists pre, post.
Qed.

(** ** Lists and slices *)

Lemma Subseq_refl {A : Type} (l : list A) : Subseq l l.
Proof. induction l; constructor; assumption. Qed.

Lemma Subseq_trans {A : Type} (l1 l2 l3 : list A) :
  Subseq l1 l2 -> Subseq l2 l3 -> Subseq l1 l3.
Proof.
  intros H12 H23. revert l1 H12.
  induction H23 as [|x l2 l3 _ IH|x l2 l3 _ IH]; intros l1 H12.
  - assumption.
  - constructor. now apply IH.
  - inversion H12; subst.
    + constructor. now apply IH.
    + apply Subseq_keep. now apply IH.
Qed.

Lemma Subseq_filter {A : Type} (f : A -> bool) (l : list A) :
  Subseq (filter f l) l.
Proof.
  induction l as [|x l IH]; simpl.
  - constructor.
  - destruct (f x); constructor; assumption.
Qed.

Lemma Subseq_firstn {A : Type} (n : nat) (l : list A) : Subseq (firstn n l) l.
Proof.
  revert n; induction l as [|x l IH]; intros [|n]; simpl.
  - constructor.
  - constructor.
  - constructor. apply (IH 0%nat).
  - apply Subseq_keep. apply IH.
Qed.

Lemma Subseq_skipn {A : Type} (n : nat) (l : list A) : Subseq (skipn n l) l.
Proof.
  revert n; induction l as [|x l IH]; intros [|n]; simpl.
  - constructor.
  - constructor.
  - apply Subseq_refl.
  - constructor. apply IH.
Qed.

Lemma Subseq_slice {A : Type} (l : list A) (a b : Z) : Subseq (slice l a b) l.
Proof.
  unfold slice. eapply Subseq_trans; [apply Subseq_firstn | apply Subseq_skipn].
Qed.

(** On a window that starts at or after the first element, [slice] is "drop
    [start], then take [n]". *)
Lemma slice_window {A : Type} (l : list A) (start n : Z) :
  0 <= start -> 0 <= n ->
  slice l start (start + n) =
  firstn (Z.to_nat n) (skipn (Z.to_nat start) l).
Proof.
  intros Hs Hn. unfold slice, relativeIndex.
  destruct (start <? 0) eqn:E1; [lia|].
  destruct (start + n <? 0) eqn:E2; [lia|].
  set (len := Z.of_nat (List.length l)).
  destruct (Z.le_gt_cases len start) as [Hle | Hlt].
  - rewrite (skipn_all2 (n := Z.to_nat (Z.min start len))) by lia.
    rewrite (skipn_all2 (n := Z.to_nat start)) by lia.
    now rewrite !firstn_nil.
  - replace (Z.min start len) with start by lia.
    destruct (Z.le_gt_cases (start + n) len) as [Hle' | Hlt'].
    + replace (Z.min (start + n) len - start) with n by lia. reflexivity.
    + replace (Z.min (start + n) len - start) with (len - start) by lia.
      rewrite !firstn_all2; try reflexivity; rewrite length_skipn; lia.
Qed.

Lemma firstn_plus {A : Type} (a b : nat) (l : list A) :
  firstn (a + b) l = firstn a l ++ firstn b (skipn a l).
Proof.
  revert l; induction a as [|a IH]; intros l.
  - reflexivity.
  - destruct l as [|x l]; simpl.
    + now rewrite firstn_nil.
    + now rewrite IH.
Qed.

(** ** The outcome of a search, effect-free *)

(** What [searchAndListJobs] of the revision with the 404 policy settles
    to, as a function of the loaded collection. *)
Lemma Rev_search_outcome (fs : FileSystem Company.t) (q location : Param)
  (page limit : option Z) :
  fst (JobsServiceRev.searchAndListJobs q location page limit fs) =
  let p := default 1 page in
  let l := default 10 limit in
  let fj := filteredJobs Company.name q location
              (loaded job_summaries_json fs) in
  if (List.length fj =? 0)%nat then
    reject (rejectResponse (ErrorObject "No jobs found" None) 404)
  else if (gt (Int p) (totalPages fj l) && gt (totalPages fj l) (Int 0))%bool
  then
    reject (rejectResponse
              (ErrorObject "Page number exceeds available pages" None) 404)
  else
    resolve (successResponse
               {| Payload.jobs := paginatedJobs fj p l;
                  Payload.pagination := pagination fj p l |}).
Proof.
  unfold JobsServiceRev.searchAndListJobs, loaded, bind, loadRecords, ret.
  cbn [fst snd].
  destruct (List.length _ =? 0)%nat; [reflexivity|].
  destruct (gt _ _ && gt _ _)%bool; reflexivity.
Qed.

(** [src/services/JobsService.js] has no rejecting branch after the load. *)
Lemma search_outcome (fs : FileSystem string) (q location : Param)
  (page limit : option Z) :
  fst (JobsService.searchAndListJobs q location page limit fs) =
  let p := default 1 page in
  let l := default 10 limit in
  let fj := filteredJobs (fun company => company) q location
              (loaded jobs_json fs) in
  resolve (successResponse
             {| Payload.jobs := paginatedJobs fj p l;
                Payload.pagination := pagination fj p l |}).
Proof. reflexivity. Qed.

Lemma filteredJobs_nil {C : Type} (companyName : C -> string)
  (q location : Param) :
  filteredJobs companyName q location [] = [].
Proof.
  unfold filteredJobs. destruct (truthy q), (truthy location); reflexivity.
Qed.

Lemma total_zero {C : Type} (l : list (Job.t C)) : total l = 0 <-> l = [].
Proof.
  unfold total. destruct l; simpl; split; intros H;
    try reflexivity; try discriminate; lia.
Qed.

Lemma loaded_degraded {C A : Type} (file : FileSystem C -> DataFile A)
  (fs : FileSystem C) :
  file fs = Unreadable \/ file fs = Document None ->
  loaded file fs = [].
Proof.
  unfold loaded, loadRecords. intros [H | H]; rewrite H; reflexivity.
Qed.

(** ** Empty results *)

(** C1.  In the revision with the 404 policy, whatever the data files, the
    filters, the page and the limit (supplied or defaulted, of any sign):
    when no job passes the filters the search is rejected as NotFound with
    the message "No jobs found".  In particular this is what happens when
    the collection itself is empty, be it an empty array, a document without
    a [jobs] array, or a file that could not be read. *)
Theorem search_no_jobs_found :
  forall (fs : FileSystem Company.t) (q location : Param)
         (page limit : option Z),
    (total (filteredJobs Company.name q location
              (loaded job_summaries_json fs)) = 0 ->
     NotFound "No jobs found"
       (fst (JobsServiceRev.searchAndListJobs q location page limit fs)))
    /\ (loaded job_summaries_json fs = [] ->
        NotFound "No jobs found"
          (fst (JobsServiceRev.searchAndListJobs q location page limit fs)))
    /\ (job_summaries_json fs = Unreadable \/
        job_summaries_json fs = Document None ->
        NotFound "No jobs found"
          (fst (JobsServiceRev.searchAndListJobs q location page limit fs))).
Proof.
  intros fs q location page limit.
  assert (Hmain :
    filteredJobs Company.name q location (loaded job_summaries_json fs) = [] ->
    NotFound "No jobs found"
      (fst (JobsServiceRev.searchAndListJobs q location page limit fs))).
  { intros H. rewrite Rev_search_outcome. cbv zeta. rewrite H. simpl.
    eexists; split; reflexivity. }
  split; [|split].
  - intros H. apply Hmain. now apply total_zero.
  - intros H. apply Hmain. rewrite H. apply filteredJobs_nil.
  - intros H. apply Hmain. rewrite (loaded_degraded _ _ H).
    apply filteredJobs_nil.
Qed.

Lemma search_no_jobs_found_witness :
  NotFound "No jobs found"
    (fst (JobsServiceRev.searchAndListJobs (str "plumber") undefined
            (Some 7) (Some 2) Sample.files))
  /\ NotFound "No jobs found"
       (fst (JobsServiceRev.searchAndListJobs undefined (str "CA")
               None None
               {| jobs_json := Unreadable;
                  job_summaries_json := Document (Some []);
                  job_details_json := Unreadable |}))
  /\ NotFound "No jobs found"
       (fst (JobsServiceRev.searchAndListJobs undefined undefined
               (Some 1) (Some 0) Sample.broken)).
Proof.
  split; [|split].
  - apply (proj1 (search_no_jobs_found Sample.files (str "plumber") undefined
                    (Some 7) (Some 2))).
    reflexivity.
  - apply (proj1 (proj2 (search_no_jobs_found _ undefined (str "CA")
                           None None))).
    reflexivity.
  - apply (proj2 (proj2 (search_no_jobs_found Sample.broken undefined
                           undefined (Some 1) (Some 0)))).
    left; reflexivity.
Defined.

(** ** The number of pages *)

(** For a positive page size [Math.ceil(a / b)] is the ceiling of the
    quotient: the least [n] with [a <= n * b]. *)
Lemma ceilDiv_pos (a b : Z) :
  0 < b ->
  exists n, ceilDiv a b = Int n /\ (n - 1) * b < a <= n * b.
Proof.
  intros Hb. unfold ceilDiv.
  destruct (b =? 0) eqn:E; [lia|].
  exists (- (- a / b)). split; [reflexivity|].
  pose proof (Z.div_mod (- a) b ltac:(lia)) as Hdm.
  pose proof (Z.mod_pos_bound (- a) b Hb) as Hr.
  nia.
Qed.

Lemma totalPages_pos {C : Type} (fj : list (Job.t C)) (limit : Z) :
  1 <= limit -> fj <> [] ->
  exists n, totalPages fj limit = Int n /\ 1 <= n
            /\ (n - 1) * limit < total fj <= n * limit.
Proof.
  intros Hl Hne. unfold totalPages.
  destruct (ceilDiv_pos (total fj) limit ltac:(lia)) as [n [-> Hn]].
  exists n. split; [reflexivity|]. split; [|assumption].
  assert (0 < total fj).
  { unfold total. destruct fj; [congruence | simpl; lia]. }
  nia.
Qed.

Lemma length_zero_false {A : Type} (l : list A) :
  l <> [] -> (List.length l =? 0)%nat = false.
Proof. destruct l; [congruence | reflexivity]. Qed.

(** ** Pages past the last one *)

(** C2.  In the revision with the 404 policy: when some job passes the
    filters, at least one page exists ([totalPages > 0]) and the requested
    page is greater than [totalPages], the search is rejected as NotFound
    with the message "Page number exceeds available pages".  With a page
    size of at least 1 a non-empty result always has at least one page, so
    there the first and the last condition suffice.  Concretely, on any
    collection of 10 records, without filters and with [limit = 5], page 1
    resolves with records 0 to 4, page 2 with records 5 to 9, and page 3 is
    rejected with that message. *)
Theorem search_page_exceeds_available_pages :
  forall (fs : FileSystem Company.t) (q location : Param)
         (page limit : option Z),
    let p := default 1 page in
    let l := default 10 limit in
    let fj := filteredJobs Company.name q location
                (loaded job_summaries_json fs) in
    let outcome page :=
      fst (JobsServiceRev.searchAndListJobs q location page limit fs) in
    (fj <> [] -> gt (totalPages fj l) (Int 0) = true ->
     gt (Int p) (totalPages fj l) = true ->
     NotFound "Page number exceeds available pages" (outcome page))
    /\ (fj <> [] -> 1 <= l -> gt (totalPages fj l) (Int 0) = true)
    /\ (fj <> [] -> 1 <= l -> gt (Int p) (totalPages fj l) = true ->
        NotFound "Page number exceeds available pages" (outcome page))
    /\ (List.length (loaded job_summaries_json fs) = 10%nat ->
        q = undefined -> location = undefined -> limit = Some 5 ->
        outcome (Some 1) =
          resolve (successResponse
            {| Payload.jobs := firstn 5 (loaded job_summaries_json fs);
               Payload.pagination :=
                 {| Pagination.total := 10; Pagination.page := 1;
                    Pagination.limit := 5;
                    Pagination.totalPages := Int 2 |} |})
        /\ outcome (Some 2) =
          resolve (successResponse
            {| Payload.jobs := skipn 5 (loaded job_summaries_json fs);
               Payload.pagination :=
                 {| Pagination.total := 10; Pagination.page := 2;
                    Pagination.limit := 5;
                    Pagination.totalPages := Int 2 |} |})
        /\ NotFound "Page number exceeds available pages" (outcome (Some 3))).
Proof.
  intros fs q location page limit p l fj outcome.
  assert (Hmain : fj <> [] -> gt (totalPages fj l) (Int 0) = true ->
                  gt (Int p) (totalPages fj l) = true ->
                  NotFound "Page number exceeds available pages"
                    (outcome page)).
  { intros Hne Hpos Hgt. unfold outcome. rewrite Rev_search_outcome.
    cbv zeta. fold fj p l.
    rewrite (length_zero_false _ Hne), Hgt, Hpos. simpl.
    eexists; split; reflexivity. }
  assert (Hpages : fj <> [] -> 1 <= l -> gt (totalPages fj l) (Int 0) = true).
  { intros Hne Hl.
    destruct (totalPages_pos fj l Hl Hne) as [n [-> [Hn _]]].
    simpl. apply Z.ltb_lt. lia. }
  split; [exact Hmain|]. split; [exact Hpages|]. split.
  - intros Hne Hl Hgt. apply Hmain; auto.
  - intros Hlen -> -> ->. unfold outcome.
    rewrite !Rev_search_outcome. cbv zeta.
    destruct (loaded job_summaries_json fs)
      as [|j0 [|j1 [|j2 [|j3 [|j4 [|j5 [|j6 [|j7 [|j8 [|j9 [|j10 rest]]]]]]]]]]];
      try discriminate Hlen.
    split; [reflexivity|]. split; [reflexivity|].
    eexists; split; reflexivity.
Qed.

Lemma search_page_exceeds_available_pages_witness :
  NotFound "Page number exceeds available pages"
    (fst (JobsServiceRev.searchAndListJobs (str "s") undefined
            (Some 3) (Some 2) Sample.files))
  /\ gt (totalPages (filteredJobs Company.name undefined (str "ca")
                       (loaded job_summaries_json Sample.files)) 1)
        (Int 0) = true
  /\ NotFound "Page number exceeds available pages"
       (fst (JobsServiceRev.searchAndListJobs undefined (str "ca")
               (Some 2) None Sample.files))
  /\ NotFound "Page number exceeds available pages"
       (fst (JobsServiceRev.searchAndListJobs undefined undefined
               (Some 3) (Some 5)
               {| jobs_json := Unreadable;
                  job_summaries_json :=
                    Document (Some (Sample.summaries ++ Sample.summaries ++
                                    Sample.summaries ++ [Sample.analyst]));
                  job_details_json := Unreadable |})).
Proof.
  split; [|split; [|split]].
  - apply (proj1 (search_page_exceeds_available_pages Sample.files (str "s")
                    undefined (Some 3) (Some 2)));
      [discriminate | reflexivity | reflexivity].
  - apply (proj1 (proj2 (search_page_exceeds_available_pages Sample.files
                           undefined (str "ca") None (Some 1))));
      [discriminate | simpl; lia].
  - apply (proj1 (proj2 (proj2 (search_page_exceeds_available_pages
                                  Sample.files undefined (str "ca")
                                  (Some 2) None))));
      [discriminate | simpl; lia | reflexivity].
  - apply (proj2 (proj2 (proj2 (search_page_exceeds_available_pages
                                  _ undefined undefined None (Some 5)))));
      reflexivity.
Defined.

(** ** The filters *)

Lemma truthy_str (s : string) : s <> EmptyString -> truthy (str s) = true.
Proof. destruct s; [congruence | reflexivity]. Qed.

Lemma matchesQuery_spec {C : Type} (companyName : C -> string) (q : string)
  (job : Job.t C) :
  matchesQuery companyName (toLowerCase q) job = true <->
  QueryMatches companyName q job.
Proof.
  unfold matchesQuery, QueryMatches.
  rewrite !orb_true_iff, !includes_spec. tauto.
Qed.

Lemma matchesLocation_spec {C : Type} (location : string) (job : Job.t C) :
  matchesLocation (toLowerCase location) job = true <->
  LocationMatches location job.
Proof. unfold matchesLocation, LocationMatches. apply includes_spec. Qed.

(** Two boolean tests that accept the same elements select the same
    sublist. *)
Lemma filter_decides {A : Type} (f g : A -> bool) (P : A -> Prop)
  (l : list A) :
  (forall a, f a = true <-> P a) -> (forall a, g a = true <-> P a) ->
  filter f l = filter g l.
Proof.
  intros Hf Hg. apply filter_ext. intros a.
  destruct (f a) eqn:Ef, (g a) eqn:Eg; try reflexivity.
  - apply Hf, Hg in Ef. congruence.
  - apply Hg, Hf in Eg. congruence.
Qed.

Lemma filter_comm {A : Type} (f g : A -> bool) (l : list A) :
  filter f (filter g l) = filter g (filter f l).
Proof.
  induction l as [|x l IH]; simpl; [reflexivity|].
  destruct (f x) eqn:Ef, (g x) eqn:Eg; simpl;
    rewrite ?Ef, ?Eg, IH; reflexivity.
Qed.

Lemma filter_filter {A : Type} (f g : A -> bool) (l : list A) :
  filter f (filter g l) = filter (fun a => (g a && f a)%bool) l.
Proof.
  induction l as [|x l IH]; simpl; [reflexivity|].
  destruct (g x) eqn:Eg; simpl; rewrite IH; reflexivity.
Qed.

(** The chain is the [location] step applied to the result of the [q]
    step. *)
Lemma filteredJobs_chain {C : Type} (companyName : C -> string)
  (q location : Param) (allJobs : list (Job.t C)) :
  filteredJobs companyName q location allJobs =
  filteredJobs companyName undefined location
    (filteredJobs companyName q undefined allJobs).
Proof. reflexivity. Qed.

(** C3.  For a present, non-empty [q] (in either revision; [companyName]
    reads the company name off a job) the [q] filter keeps exactly the
    jobs whose lowercased title, company name or location contains the
    lowercased [q]: the same jobs, in their order and with their
    multiplicity, as any test [keep] that decides that disjunction.  The
    [location] filter runs on the output of the [q] filter.  An omitted,
    null or empty [q] leaves the collection as it is before the [location]
    filter runs. *)
Theorem q_filter_keeps_matches :
  forall (C : Type) (companyName : C -> string) (q : string)
         (location : Param) (allJobs : list (Job.t C)),
    (q <> EmptyString ->
     (forall job,
         In job (filteredJobs companyName (str q) undefined allJobs) <->
         In job allJobs /\ QueryMatches companyName q job)
     /\ (forall keep : Job.t C -> bool,
            (forall job, keep job = true <-> QueryMatches companyName q job) ->
            filteredJobs companyName (str q) undefined allJobs =
            filter keep allJobs)
     /\ filteredJobs companyName (str q) location allJobs =
        filteredJobs companyName undefined location
          (filteredJobs companyName (str q) undefined allJobs))
    /\ (forall q0, q0 = undefined \/ q0 = null \/ q0 = str EmptyString ->
         filteredJobs companyName q0 undefined allJobs = allJobs
         /\ filteredJobs companyName q0 location allJobs =
            filteredJobs companyName undefined location allJobs).
Proof.
  intros C companyName q location allJobs. split.
  - intros Hq.
    assert (E : filteredJobs companyName (str q) undefined allJobs =
                filter (matchesQuery companyName (toLowerCase q)) allJobs).
    { unfold filteredJobs. rewrite (truthy_str q Hq). reflexivity. }
    split; [|split].
    + intros job. rewrite E, filter_In, matchesQuery_spec. reflexivity.
    + intros keep Hkeep. rewrite E.
      apply (filter_decides _ _ (QueryMatches companyName q)).
      * intros job. apply matchesQuery_spec.
      * assumption.
    + apply filteredJobs_chain.
  - intros q0 [-> | [-> | ->]]; split; reflexivity.
Qed.

Lemma q_filter_keeps_matches_witness :
  In Sample.analyst
     (filteredJobs Company.name (str "startup") undefined Sample.summaries).
Proof.
  apply (proj1 (proj1 (q_filter_keeps_matches Company.t Company.name
                         "startup" undefined Sample.summaries)
                  ltac:(discriminate))).
  split.
  - simpl. tauto.
  - right. left. exists EmptyString, "hub"%string. reflexivity.
Defined.

(** C4.  When [q] and [location] are both present and non-empty (in either
    revision), the [location] filter keeps, from the jobs the [q] filter
    kept, exactly those whose lowercased location contains the lowercased
    [location] term; the title and the company play no part in it.  The
    result holds the jobs that each filter, run alone on the collection,
    keeps: the intersection of the two match sets, in collection order.
    It is not their union: on the sample collection [q = "engineer"]
    alone keeps a job, [location = "new york"] alone keeps another, and
    together they keep none. *)
Theorem location_filter_intersects :
  forall (C : Type) (companyName : C -> string) (q location : string)
         (allJobs : list (Job.t C)),
    (q <> EmptyString -> location <> EmptyString ->
     let both := filteredJobs companyName (str q) (str location) allJobs in
     let qOnly := filteredJobs companyName (str q) undefined allJobs in
     let locationOnly :=
       filteredJobs companyName undefined (str location) allJobs in
     (forall job, In job both <-> In job qOnly /\ LocationMatches location job)
     /\ (forall keep : Job.t C -> bool,
            (forall job, keep job = true <-> LocationMatches location job) ->
            both = filter keep qOnly)
     /\ (forall job, In job both <-> In job qOnly /\ In job locationOnly)
     /\ (forall keep : Job.t C -> bool,
            (forall job, keep job = true <->
                         QueryMatches companyName q job
                         /\ LocationMatches location job) ->
            both = filter keep allJobs))
    /\ (filteredJobs Company.name (str "engineer") undefined Sample.summaries
        = [Sample.engineer]
        /\ filteredJobs Company.name undefined (str "new york")
             Sample.summaries = [Sample.designer]
        /\ filteredJobs Company.name (str "engineer") (str "new york")
             Sample.summaries = []).
Proof.
  intros C companyName q location allJobs. split; [|repeat split].
  intros Hq Hl both qOnly locationOnly.
  assert (Eq : qOnly = filter (matchesQuery companyName (toLowerCase q))
                         allJobs).
  { unfold qOnly, filteredJobs. rewrite (truthy_str q Hq). reflexivity. }
  assert (El : locationOnly =
               filter (matchesLocation (toLowerCase location)) allJobs).
  { unfold locationOnly, filteredJobs. rewrite (truthy_str location Hl).
    reflexivity. }
  assert (Eb : both = filter (matchesLocation (toLowerCase location)) qOnly).
  { unfold both, qOnly, filteredJobs.
    rewrite (truthy_str q Hq), (truthy_str location Hl). reflexivity. }
  split; [|split; [|split]].
  - intros job. rewrite Eb, filter_In, matchesLocation_spec. reflexivity.
  - intros keep Hkeep. rewrite Eb.
    apply (filter_decides _ _ (LocationMatches location)).
    + intros job. apply matchesLocation_spec.
    + assumption.
  - intros job. rewrite Eb, El, Eq, !filter_In. tauto.
  - intros keep Hkeep. rewrite Eb, Eq, filter_filter.
    apply (filter_decides _ _ (fun job => QueryMatches companyName q job
                                          /\ LocationMatches location job)).
    + intros job.
      rewrite andb_true_iff, matchesQuery_spec, matchesLocation_spec.
      reflexivity.
    + assumption.
Qed.

Lemma location_filter_intersects_witness :
  In Sample.analyst
     (filteredJobs Company.name (str "startup") (str "CA") Sample.summaries).
Proof.
  apply (proj1 (proj2 (proj2
           (proj1 (location_filter_intersects Company.t Company.name
                     "startup" "CA" Sample.summaries)
              ltac:(discriminate) ltac:(discriminate))))).
  split; cbv; tauto.
Defined.

(** C9.  The two filters commute (in either revision): running the [q]
    filter and then the [location] filter, as the code does, gives the same
    jobs in the same order as running the [location] filter first and the
    [q] filter on its output.  This holds for every value of the two
    parameters, in particular for two present, non-empty strings. *)
Theorem filters_commute :
  forall (C : Type) (companyName : C -> string) (q location : Param)
         (allJobs : list (Job.t C)),
    filteredJobs companyName undefined location
      (filteredJobs companyName q undefined allJobs) =
    filteredJobs companyName q undefined
      (filteredJobs companyName undefined location allJobs)
    /\ filteredJobs companyName q location allJobs =
       filteredJobs companyName q undefined
         (filteredJobs companyName undefined location allJobs).
Proof.
  intros C companyName q location allJobs.
  assert (E : filteredJobs companyName undefined location
                (filteredJobs companyName q undefined allJobs) =
              filteredJobs companyName q undefined
                (filteredJobs companyName undefined location allJobs)).
  { unfold filteredJobs.
    destruct (truthy q), (truthy location); cbn [truthy];
      try reflexivity.
    apply filter_comm. }
  split; [exact E|].
  rewrite <- E. apply filteredJobs_chain.
Qed.

(** ** Pagination *)

Lemma filteredJobs_Subseq {C : Type} (companyName : C -> string)
  (q location : Param) (allJobs : list (Job.t C)) :
  Subseq (filteredJobs companyName q location allJobs) allJobs.
Proof.
  unfold filteredJobs.
  destruct (truthy q), (truthy location).
  - eapply Subseq_trans; apply Subseq_filter.
  - apply Subseq_filter.
  - apply Subseq_filter.
  - apply Subseq_refl.
Qed.

Lemma paginatedJobs_window {C : Type} (fj : list (Job.t C)) (p l : Z) :
  1 <= l -> 1 <= p ->
  paginatedJobs fj p l =
  firstn (Z.to_nat l) (skipn (Z.to_nat ((p - 1) * l)) fj).
Proof.
  intros Hl Hp. unfold paginatedJobs, endIndex, startIndex.
  apply slice_window; nia.
Qed.

(** The page and the descriptor computed by lines 100-113 are a page in
    the sense of [Paginated]. *)
Lemma engine_Paginated {C : Type} (fj : list (Job.t C)) (p l : Z) :
  1 <= l -> 1 <= p ->
  Paginated fj p l
    {| Payload.jobs := paginatedJobs fj p l;
       Payload.pagination := pagination fj p l |}.
Proof.
  intros Hl Hp. unfold Paginated. cbn [Payload.jobs Payload.pagination].
  rewrite (paginatedJobs_window fj p l Hl Hp).
  split; [reflexivity|]. split.
  - intros i. rewrite nth_error_firstn, nth_error_skipn.
    destruct (Z.of_nat i <? l) eqn:E.
    + apply Z.ltb_lt in E.
      replace (i <? Z.to_nat l)%nat with true
        by (symmetry; apply Nat.ltb_lt; lia).
      reflexivity.
    + apply Z.ltb_ge in E.
      replace (i <? Z.to_nat l)%nat with false
        by (symmetry; apply Nat.ltb_ge; lia).
      reflexivity.
  - split; [reflexivity|]. split; [|split; reflexivity].
    cbn [pagination Pagination.totalPages]. unfold totalPages, total.
    destruct (ceilDiv_pos (Z.of_nat (List.length fj)) l ltac:(lia))
      as [n [-> Hn]].
    exists n. split; [reflexivity|]. split; [assumption|].
    intros H0. rewrite H0 in Hn. simpl in Hn. nia.
Qed.

(** C5.  For a page size of at least 1 and a page of at least 1 (supplied
    or defaulted), in both revisions: the filtered sequence is the
    collection with the rejected jobs left out and the others in their
    order; whenever the search resolves, its payload is the page in the
    sense of [Paginated]: the jobs are the window
    [(page-1)*limit, (page-1)*limit + limit) of the filtered sequence, and
    the descriptor holds the number of filtered jobs, the ceiling of
    total / limit (0 when total is 0), and the page and limit as used.
    [src/services/JobsService.js] always resolves; the revision with the
    404 policy resolves whenever some job passes the filters and the page
    is not greater than the number of pages. *)
Theorem search_pagination_math :
  forall (fs : FileSystem Company.t) (legacy : FileSystem string)
         (q location : Param) (page limit : option Z),
    let p := default 1 page in
    let l := default 10 limit in
    let fj := filteredJobs Company.name q location
                (loaded job_summaries_json fs) in
    let fj' := filteredJobs (fun company => company) q location
                 (loaded jobs_json legacy) in
    1 <= l -> 1 <= p ->
    Subseq fj (loaded job_summaries_json fs)
    /\ (forall r,
          fst (JobsServiceRev.searchAndListJobs q location page limit fs) =
          resolve (successResponse r) ->
          Paginated fj p l r)
    /\ (fj <> [] -> gt (Int p) (totalPages fj l) = false ->
        exists r,
          fst (JobsServiceRev.searchAndListJobs q location page limit fs) =
          resolve (successResponse r))
    /\ Subseq fj' (loaded jobs_json legacy)
    /\ (exists r,
          fst (JobsService.searchAndListJobs q location page limit legacy) =
          resolve (successResponse r)
          /\ Paginated fj' p l r).
Proof.
  intros fs legacy q location page limit p l fj fj' Hl Hp.
  split; [apply filteredJobs_Subseq|]. split; [|split; [|split]].
  - intros r. rewrite Rev_search_outcome. cbv zeta. fold p l fj.
    destruct (List.length fj =? 0)%nat; [discriminate|].
    destruct (gt (Int p) (totalPages fj l) && gt (totalPages fj l) (Int 0))%bool;
      [discriminate|].
    intros H. injection H as <-. now apply engine_Paginated.
  - intros Hne Hgt. rewrite Rev_search_outcome. cbv zeta. fold p l fj.
    rewrite (length_zero_false _ Hne), Hgt. simpl. eexists; reflexivity.
  - apply filteredJobs_Subseq.
  - rewrite search_outcome. cbv zeta. fold p l fj'.
    eexists; split; [reflexivity|]. now apply engine_Paginated.
Qed.

Lemma search_pagination_math_witness :
  exists r,
    fst (JobsServiceRev.searchAndListJobs undefined (str "ca") (Some 2)
           (Some 1) Sample.files) = resolve (successResponse r)
    /\ Paginated [Sample.engineer; Sample.analyst] 2 1 r
    /\ Payload.jobs r = [Sample.analyst].
Proof.
  pose proof (search_pagination_math Sample.files Sample.legacyFiles
                undefined (str "ca") (Some 2) (Some 1)
                ltac:(simpl; lia) ltac:(simpl; lia)) as [_ [H [Hr _]]].
  destruct (Hr ltac:(discriminate) eq_refl) as [r Er].
  exists r. split; [exact Er|]. split.
  - exact (H r Er).
  - rewrite (proj1 (H r Er)). reflexivity.
Defined.

(** ** All the pages together *)

(** The first [k] pages, one after the other, are the first [k * limit]
    jobs. *)
Lemma concat_first_pages {C : Type} (fj : list (Job.t C)) (l : Z) (k : nat) :
  1 <= l ->
  List.concat (map (fun page => paginatedJobs fj page l)
              (map Z.of_nat (seq 1 k))) =
  firstn (k * Z.to_nat l) fj.
Proof.
  intros Hl. induction k as [|k IH].
  - reflexivity.
  - rewrite seq_S, !map_app, concat_app, IH. cbn [map List.concat].
    rewrite app_nil_r, paginatedJobs_window by lia.
    replace (Z.to_nat ((Z.of_nat (1 + k) - 1) * l))
      with (k * Z.to_nat l)%nat by nia.
    replace (S k * Z.to_nat l)%nat with (k * Z.to_nat l + Z.to_nat l)%nat
      by lia.
    symmetry. apply firstn_plus.
Qed.

Lemma pages_range (n page : Z) : In page (pages n) -> 1 <= page <= n.
Proof.
  unfold pages. rewrite in_map_iff. intros [i [<- Hi]].
  apply in_seq in Hi. lia.
Qed.

(** C7.  For a non-empty filtered sequence and a page size of at least 1
    (in either revision's arithmetic), [totalPages] is the ceiling [n] of
    total / limit, and the windows of pages 1 to [n], put one after the
    other, are the filtered sequence itself: every job once, in order.  In
    the revision with the 404 policy each of these pages resolves, so the
    same holds of the jobs delivered by the [n] searches. *)
Theorem pages_rebuild_filtered_sequence :
  forall (fs : FileSystem Company.t) (q location : Param) (limit : option Z),
    let l := default 10 limit in
    let fj := filteredJobs Company.name q location
                (loaded job_summaries_json fs) in
    fj <> [] -> 1 <= l ->
    exists n,
      totalPages fj l = Int n
      /\ (n - 1) * l < total fj <= n * l
      /\ List.concat (map (fun page => paginatedJobs fj page l) (pages n)) = fj
      /\ List.concat (map (fun page =>
                        deliveredJobs
                          (fst (JobsServiceRev.searchAndListJobs
                                  q location (Some page) limit fs)))
                     (pages n)) = fj.
Proof.
  intros fs q location limit l fj Hne Hl.
  destruct (totalPages_pos fj l Hl Hne) as [n [En [Hn1 Hn]]].
  exists n. split; [exact En|]. split; [exact Hn|].
  assert (Hall : List.concat (map (fun page => paginatedJobs fj page l) (pages n))
                 = fj).
  { unfold pages. rewrite concat_first_pages by assumption.
    apply firstn_all2. unfold total in Hn. nia. }
  split; [exact Hall|].
  etransitivity; [|exact Hall]. f_equal. apply map_ext_in.
  intros page Hpage. apply pages_range in Hpage.
  rewrite Rev_search_outcome. cbv zeta. fold l fj.
  rewrite (length_zero_false _ Hne), En. cbn [default gt].
  replace (n <? page) with false by (symmetry; apply Z.ltb_ge; lia).
  reflexivity.
Qed.

Lemma pages_rebuild_filtered_sequence_witness :
  exists n,
    totalPages Sample.summaries 2 = Int n
    /\ List.concat (map (fun page =>
                      deliveredJobs
                        (fst (JobsServiceRev.searchAndListJobs
                                undefined undefined (Some page) (Some 2)
                                Sample.files)))
                   (pages n)) = Sample.summaries.
Proof.
  destruct (pages_rebuild_filtered_sequence Sample.files undefined undefined
              (Some 2) ltac:(discriminate) ltac:(simpl; lia))
    as [n [En [_ [_ H]]]].
  exists n. split; [exact En | exact H].
Defined.

(** ** Empty pages *)

Lemma paginatedJobs_nonempty {C : Type} (fj : list (Job.t C)) (p l : Z) :
  1 <= l -> 1 <= p -> fj <> [] ->
  gt (Int p) (totalPages fj l) = false ->
  paginatedJobs fj p l <> [].
Proof.
  intros Hl Hp Hne Hgt.
  destruct (totalPages_pos fj l Hl Hne) as [n [En [Hn1 Hn]]].
  rewrite En in Hgt. cbn [gt] in Hgt. apply Z.ltb_ge in Hgt.
  rewrite paginatedJobs_window by assumption.
  intros E. apply (f_equal (@List.length _)) in E.
  rewrite length_firstn, length_skipn in E. cbn [List.length] in E.
  unfold total in Hn. nia.
Qed.

(** C8, as stated, fails.  In the revision with the 404 policy a search for
    page 0 with page size 2 on the three sample jobs resolves, its total is
    3 and its page is not greater than its [totalPages] (0 <= 2), and yet
    the page it returns is empty.  (Page 1 with [limit = 0] is another such
    call: [totalPages] is [Infinity] and the window is empty.) *)
Lemma successful_page_may_be_empty :
  ~ (forall (fs : FileSystem Company.t) (q location : Param)
            (page limit : option Z) (r : Payload.t (Job.t Company.t)),
        fst (JobsServiceRev.searchAndListJobs q location page limit fs) =
        resolve (successResponse r) ->
        0 < Pagination.total (Payload.pagination r) ->
        le (Int (Pagination.page (Payload.pagination r)))
           (Pagination.totalPages (Payload.pagination r)) = true ->
        Payload.jobs r <> []).
Proof.
  intros H.
  apply (H Sample.files undefined undefined (Some 0) (Some 2)
           {| Payload.jobs := [];
              Payload.pagination :=
                {| Pagination.total := 3; Pagination.page := 0;
                   Pagination.limit := 2;
                   Pagination.totalPages := Int 2 |} |});
    reflexivity.
Qed.

(** C8, amended.  For a page of at least 1 and a page size of at least 1
    (supplied or defaulted): whenever some job passes the filters and the
    page is not greater than [totalPages], the window computed by either
    revision is non-empty; and whenever the search of the revision with the
    404 policy resolves, some job passed the filters, the page is at most
    [totalPages], and the page it returns is non-empty. *)
Theorem successful_page_nonempty :
  forall (fs : FileSystem Company.t) (q location : Param)
         (page limit : option Z),
    let p := default 1 page in
    let l := default 10 limit in
    let fj := filteredJobs Company.name q location
                (loaded job_summaries_json fs) in
    1 <= p -> 1 <= l ->
    (forall (C : Type) (filtered : list (Job.t C)),
        filtered <> [] -> gt (Int p) (totalPages filtered l) = false ->
        paginatedJobs filtered p l <> [])
    /\ (forall r,
          fst (JobsServiceRev.searchAndListJobs q location page limit fs) =
          resolve (successResponse r) ->
          0 < Pagination.total (Payload.pagination r)
          /\ le (Int p) (Pagination.totalPages (Payload.pagination r)) = true
          /\ Payload.jobs r <> []).
Proof.
  intros fs q location page limit p l fj Hp Hl. split.
  - intros C filtered Hne Hgt. now apply paginatedJobs_nonempty.
  - intros r. rewrite Rev_search_outcome. cbv zeta. fold p l fj.
    destruct (List.length fj =? 0)%nat eqn:E0; [discriminate|].
    assert (Hne : fj <> []).
    { intros E. rewrite E in E0. discriminate. }
    destruct (totalPages_pos fj l Hl Hne) as [n [En [Hn1 Hn]]].
    assert (Hpos : gt (totalPages fj l) (Int 0) = true).
    { rewrite En. cbn [gt]. apply Z.ltb_lt. lia. }
    rewrite Hpos, andb_true_r.
    destruct (gt (Int p) (totalPages fj l)) eqn:Hgt; [discriminate|].
    intros H. injection H as <-.
    cbn [Payload.jobs Payload.pagination pagination Pagination.total
         Pagination.totalPages].
    split.
    { destruct (Z.eq_dec (total fj) 0) as [E | E];
        [apply total_zero in E; contradiction | unfold total in *; lia]. }
    split.
    + rewrite En in Hgt |- *. cbn [gt] in Hgt. cbn [le].
      apply Z.ltb_ge in Hgt. now apply Z.leb_le.
    + now apply paginatedJobs_nonempty.
Qed.

Lemma successful_page_nonempty_witness :
  paginatedJobs Sample.summaries 2 2 <> []
  /\ forall r,
       fst (JobsServiceRev.searchAndListJobs undefined undefined (Some 2)
              (Some 2) Sample.files) = resolve (successResponse r) ->
       Payload.jobs r <> [].
Proof.
  pose proof (successful_page_nonempty Sample.files undefined undefined
                (Some 2) (Some 2) ltac:(simpl; lia) ltac:(simpl; lia))
    as [Hw Hr].
  split.
  - apply Hw; [discriminate | reflexivity].
  - intros r Er. apply (Hr r Er).
Defined.

(** ** Page zero *)

(** C10.  For a page size of at least 1 (supplied or defaulted) and
    [page = 0]: the start index is [-limit], the end index is 0, and the
    window taken by [slice] from any sequence is empty.
    [src/services/JobsService.js] then resolves, whatever the collection and
    the filters, with an empty list of jobs and a descriptor whose page
    is 0. *)
Theorem page_zero_resolves_empty :
  forall (legacy : FileSystem string) (q location : Param)
         (limit : option Z),
    let l := default 10 limit in
    let fj := filteredJobs (fun company => company) q location
                (loaded jobs_json legacy) in
    1 <= l ->
    startIndex 0 l = - l
    /\ endIndex 0 l = 0
    /\ (forall (C : Type) (filtered : list (Job.t C)),
          paginatedJobs filtered 0 l = [])
    /\ fst (JobsService.searchAndListJobs q location (Some 0) limit legacy) =
       resolve (successResponse
         {| Payload.jobs := [];
            Payload.pagination :=
              {| Pagination.total := total fj;
                 Pagination.page := 0;
                 Pagination.limit := l;
                 Pagination.totalPages := totalPages fj l |} |}).
Proof.
  intros legacy q location limit l fj Hl.
  assert (Hs : startIndex 0 l = - l) by (unfold startIndex; lia).
  assert (He : endIndex 0 l = 0) by (unfold endIndex, startIndex; lia).
  assert (Hw : forall (C : Type) (filtered : list (Job.t C)),
             paginatedJobs filtered 0 l = []).
  { intros C filtered. unfold paginatedJobs. rewrite Hs, He.
    unfold slice, relativeIndex.
    replace (- l <? 0) with true by (symmetry; apply Z.ltb_lt; lia).
    cbn [Z.ltb Z.compare].
    replace (Z.to_nat _) with 0%nat by lia. reflexivity. }
  split; [exact Hs|]. split; [exact He|]. split; [exact Hw|].
  rewrite search_outcome. cbv zeta. cbn [default]. fold l fj.
  rewrite Hw. reflexivity.
Qed.

Lemma page_zero_resolves_empty_witness :
  fst (JobsService.searchAndListJobs (str "engineer") undefined (Some 0)
         None Sample.legacyFiles) =
  resolve (successResponse
    {| Payload.jobs := [];
       Payload.pagination :=
         {| Pagination.total := 1; Pagination.page := 0;
            Pagination.limit := 10; Pagination.totalPages := Int 1 |} |}).
Proof.
  exact (proj2 (proj2 (proj2
           (page_zero_resolves_empty Sample.legacyFiles (str "engineer")
              undefined None ltac:(simpl; lia))))).
Defined.

(** ** Detail lookup *)

(** [find] stops at the first element that passes the test. *)
Lemma find_first_match {A : Type} (f : A -> bool) (l : list A) :
  (exists x, In x l /\ f x = true) ->
  exists pre d post,
    l = pre ++ d :: post /\ f d = true
    /\ (forall x, In x pre -> f x = false)
    /\ find f l = Some d.
Proof.
  induction l as [|a l IH]; intros [x [Hin Hx]].
  - destruct Hin.
  - destruct (f a) eqn:Ea.
    + exists [], a, l. simpl. rewrite Ea.
      split; [reflexivity|]. split; [reflexivity|].
      split; [intros y []|reflexivity].
    + destruct IH as [pre [d [post [El [Hd [Hpre Hf]]]]]].
      { destruct Hin as [-> | Hin]; [congruence | now exists x]. }
      exists (a :: pre), d, post. simpl. rewrite Ea.
      split; [now rewrite El|]. split; [assumption|].
      split; [|assumption].
      intros y [<- | Hy]; [assumption | now apply Hpre].
Qed.

Lemma NoDup_map_inj {A B : Type} (f : A -> B) (l : list A) (x y : A) :
  NoDup (map f l) -> In x l -> In y l -> f x = f y -> x = y.
Proof.
  induction l as [|a l IH]; intros Hnd Hx Hy Hxy; [destruct Hx|].
  simpl in Hnd. apply NoDup_cons_iff in Hnd. destruct Hnd as [Hna Hnd].
  destruct Hx as [-> | Hx], Hy as [-> | Hy].
  - reflexivity.
  - exfalso. apply Hna. rewrite Hxy. now apply in_map.
  - exfalso. apply Hna. rewrite <- Hxy. now apply in_map.
  - now apply IH.
Qed.

Lemma Rev_detail_outcome (fs : FileSystem Company.t) (jobId : string) :
  JobsServiceRev.getJobDetails jobId fs =
  (match find (fun job => (Detail.id job =? jobId)%string)
               (loaded job_details_json fs) with
   | None => reject (rejectResponse
                       (ErrorObject "Job not found" (Some 404)) 404)
   | Some jobDetail => resolve (successResponse jobDetail)
   end, fs).
Proof.
  unfold JobsServiceRev.getJobDetails, loaded, bind, loadRecords, ret.
  cbn [fst]. destruct (find _ _); reflexivity.
Qed.

Lemma detail_outcome (fs : FileSystem string) (jobId : string) :
  JobsService.getJobDetails jobId fs =
  (match find (fun job => (Detail.id job =? jobId)%string)
               (loaded job_details_json fs) with
   | None => reject (rejectResponse (ErrorText "Job not found") 404)
   | Some jobDetail => resolve (successResponse jobDetail)
   end, fs).
Proof.
  unfold JobsService.getJobDetails, loaded, bind, loadRecords, ret.
  cbn [fst]. destruct (find _ _); reflexivity.
Qed.

(** What the lookup settles to, whichever the message body of the
    rejection [missing] is. *)
Lemma lookup_by_id {C : Type} (details : list (Detail.t C)) (jobId : string)
  (missing : Settled (Detail.t C)) :
  let outcome :=
    match find (fun job => (Detail.id job =? jobId)%string) details with
    | None => missing
    | Some jobDetail => resolve (successResponse jobDetail)
    end in
  ((exists d, In d details /\ Detail.id d = jobId) ->
   exists pre d post,
     details = pre ++ d :: post /\ Detail.id d = jobId
     /\ (forall x, In x pre -> Detail.id x <> jobId)
     /\ outcome = resolve (successResponse d))
  /\ (forall d, NoDup (map Detail.id details) ->
                In d details -> Detail.id d = jobId ->
                outcome = resolve (successResponse d))
  /\ ((forall d, In d details -> Detail.id d <> jobId) -> outcome = missing).
Proof.
  intros outcome.
  assert (Hfirst : (exists d, In d details /\ Detail.id d = jobId) ->
    exists pre d post,
      details = pre ++ d :: post /\ Detail.id d = jobId
      /\ (forall x, In x pre -> Detail.id x <> jobId)
      /\ outcome = resolve (successResponse d)).
  { intros [d [Hin Hid]].
    destruct (find_first_match
                (fun job => (Detail.id job =? jobId)%string) details)
      as [pre [d' [post [El [Hd' [Hpre Hf]]]]]].
    { exists d. split; [assumption | now apply String.eqb_eq]. }
    exists pre, d', post. split; [assumption|].
    split; [now apply String.eqb_eq|]. split.
    - intros x Hx. apply String.eqb_neq. now apply Hpre.
    - unfold outcome. now rewrite Hf. }
  split; [exact Hfirst|]. split.
  - intros d Hnd Hin Hid.
    destruct Hfirst as [pre [d' [post [El [Hd' [_ Ho]]]]]];
      [now exists d|].
    rewrite Ho. do 2 f_equal.
    apply (NoDup_map_inj Detail.id details); try assumption.
    + rewrite El. apply in_elt.
    + congruence.
  - intros Hnone. unfold outcome.
    destruct (find _ details) as [d|] eqn:Ef; [|reflexivity].
    apply find_some in Ef. destruct Ef as [Hin Hid].
    apply String.eqb_eq in Hid. exfalso. exact (Hnone d Hin Hid).
Qed.

(** C6.  In both revisions, for every content of the data files and every
    id: if some detail record has exactly the requested id, the lookup
    resolves with a record of the collection that has this id, as it is
    stored (the first such record; with unique ids, the record); if no
    record has the id, the lookup is rejected as NotFound with the message
    "Job not found"; in both cases the data files are left as they were.
    (The diagnostics written to the console are outside the model.) *)
Theorem getJobDetails_exact_match :
  forall (fs : FileSystem Company.t) (legacy : FileSystem string)
         (jobId : string),
    let details := loaded job_details_json fs in
    let details' := loaded job_details_json legacy in
    ((exists d, In d details /\ Detail.id d = jobId) ->
     exists pre d post,
       details = pre ++ d :: post /\ Detail.id d = jobId
       /\ (forall x, In x pre -> Detail.id x <> jobId)
       /\ fst (JobsServiceRev.getJobDetails jobId fs) =
          resolve (successResponse d))
    /\ (forall d, NoDup (map Detail.id details) ->
                  In d details -> Detail.id d = jobId ->
                  fst (JobsServiceRev.getJobDetails jobId fs) =
                  resolve (successResponse d))
    /\ ((forall d, In d details -> Detail.id d <> jobId) ->
        NotFound "Job not found" (fst (JobsServiceRev.getJobDetails jobId fs)))
    /\ snd (JobsServiceRev.getJobDetails jobId fs) = fs
    /\ ((exists d, In d details' /\ Detail.id d = jobId) ->
        exists pre d post,
          details' = pre ++ d :: post /\ Detail.id d = jobId
          /\ (forall x, In x pre -> Detail.id x <> jobId)
          /\ fst (JobsService.getJobDetails jobId legacy) =
             resolve (successResponse d))
    /\ (forall d, NoDup (map Detail.id details') ->
                  In d details' -> Detail.id d = jobId ->
                  fst (JobsService.getJobDetails jobId legacy) =
                  resolve (successResponse d))
    /\ ((forall d, In d details' -> Detail.id d <> jobId) ->
        NotFound "Job not found" (fst (JobsService.getJobDetails jobId legacy)))
    /\ snd (JobsService.getJobDetails jobId legacy) = legacy.
Proof.
  intros fs legacy jobId details details'.
  rewrite Rev_detail_outcome, detail_outcome. cbn [fst snd].
  fold details details'.
  destruct (lookup_by_id details jobId
              (reject (rejectResponse
                         (ErrorObject "Job not found" (Some 404)) 404)))
    as [H1 [H2 H3]].
  destruct (lookup_by_id details' jobId
              (reject (rejectResponse (ErrorText "Job not found") 404)))
    as [H1' [H2' H3']].
  split; [exact H1|]. split; [exact H2|]. split.
  { intros H. rewrite (H3 H). eexists; split; reflexivity. }
  split; [reflexivity|].
  split; [exact H1'|]. split; [exact H2'|]. split; [|reflexivity].
  intros H. rewrite (H3' H). eexists; split; reflexivity.
Qed.

Lemma getJobDetails_exact_match_witness :
  fst (JobsServiceRev.getJobDetails "234f5678-f89c-23e4-b567-537725285111"
         Sample.files) =
  resolve (successResponse
             (Sample.detail "234f5678-f89c-23e4-b567-537725285111"
                "Product Designer" Sample.startupHub))
  /\ NotFound "Job not found"
       (fst (JobsServiceRev.getJobDetails "no-such-id" Sample.files))
  /\ NotFound "Job not found"
       (fst (JobsService.getJobDetails "2" Sample.legacyFiles)).
Proof.
  pose proof (getJobDetails_exact_match Sample.files Sample.legacyFiles
                "234f5678-f89c-23e4-b567-537725285111") as Hhit.
  pose proof (getJobDetails_exact_match Sample.files Sample.legacyFiles
                "no-such-id") as Hmiss.
  pose proof (getJobDetails_exact_match Sample.files Sample.legacyFiles
                "2") as Hmiss'.
  split; [|split].
  - apply (proj1 (proj2 Hhit)).
    + repeat constructor; simpl; intuition discriminate.
    + simpl. tauto.
    + reflexivity.
  - apply (proj1 (proj2 (proj2 Hmiss))).
    intros d [<- | [<- | []]]; discriminate.
  - apply (proj1 (proj2 (proj2 (proj2 (proj2 (proj2 (proj2 Hmiss'))))))).
    intros d [<- | []]; discriminate.
Defined.

(** * Further properties of the two operations *)

(** ** Which way a search settles *)

Lemma NotFound_reject {P : Type} (m : string) (e : ErrorBody) :
  NotFound (P := P) m (reject (rejectResponse e 404)) <-> message e = m.
Proof.
  unfold NotFound. split.
  - intros [e' [H Hm]]. injection H as ->. exact Hm.
  - intros Hm. exists e. split; [reflexivity | exact Hm].
Qed.

Lemma NotFound_resolve {P : Type} (m : string) (r : Response P) :
  ~ NotFound m (resolve r).
Proof. intros [e [H _]]. discriminate H. Qed.

(** With a page size of at least 1 the revision with the 404 policy
    settles in exactly one of three ways, decided by the filtered sequence
    and by the page against the number of pages [n]: "No jobs found" when
    nothing passes the filters; "Page number exceeds available pages" when
    something passes and the page is greater than [n]; a resolved page in
    every other case, pages 0 and below included. *)
Theorem search_settles_three_ways :
  forall (fs : FileSystem Company.t) (q location : Param)
         (page limit : option Z),
    let p := default 1 page in
    let l := default 10 limit in
    let fj := filteredJobs Company.name q location
                (loaded job_summaries_json fs) in
    let outcome :=
      fst (JobsServiceRev.searchAndListJobs q location page limit fs) in
    1 <= l ->
    exists n,
      totalPages fj l = Int n
      /\ (NotFound "No jobs found" outcome <-> fj = [])
      /\ (NotFound "Page number exceeds available pages" outcome <->
          fj <> [] /\ n < p)
      /\ ((exists r, outcome = resolve (successResponse r)) <->
          fj <> [] /\ p <= n).
Proof.
  intros fs q location page limit p l fj outcome Hl.
  destruct (ceilDiv_pos (total fj) l ltac:(lia)) as [n [En Hn]].
  exists n. split; [exact En|].
  unfold outcome. rewrite Rev_search_outcome. cbv zeta. fold p l fj.
  unfold totalPages in *. rewrite En. cbn [gt].
  destruct fj as [|j fj'] eqn:Efj.
  - cbn [List.length Nat.eqb]. split; [|split].
    + rewrite NotFound_reject. split; reflexivity.
    + rewrite NotFound_reject. split; [discriminate | intros [H _]; congruence].
    + split; [intros [r H]; discriminate | intros [H _]; congruence].
  - cbn [List.length Nat.eqb].
    assert (Hpos : (0 <? n) = true).
    { apply Z.ltb_lt. unfold total in Hn. cbn [List.length] in Hn. nia. }
    rewrite Hpos, andb_true_r.
    destruct (n <? p) eqn:Enp.
    + apply Z.ltb_lt in Enp. split; [|split].
      * rewrite NotFound_reject. split; discriminate.
      * rewrite NotFound_reject. split; [intros _; split; [discriminate | lia]
                                        | reflexivity].
      * split; [intros [r H]; discriminate | intros [_ H]; lia].
    + apply Z.ltb_ge in Enp. split; [|split].
      * split; [intros H; now apply NotFound_resolve in H | discriminate].
      * split; [intros H; now apply NotFound_resolve in H | intros [_ H]; lia].
      * split; [intros _; split; [discriminate | lia]
               | intros _; eexists; reflexivity].
Qed.

Lemma search_settles_three_ways_witness :
  exists n,
    totalPages (filteredJobs Company.name undefined (str "ca")
                  (loaded job_summaries_json Sample.files)) 1 = Int n
    /\ (NotFound "Page number exceeds available pages"
          (fst (JobsServiceRev.searchAndListJobs undefined (str "ca")
                  (Some 3) (Some 1) Sample.files)) <->
        filteredJobs Company.name undefined (str "ca")
          (loaded job_summaries_json Sample.files) <> [] /\ n < 3).
Proof.
  destruct (search_settles_three_ways Sample.files undefined (str "ca")
              (Some 3) (Some 1) ltac:(simpl; lia)) as [n [En [_ [H _]]]].
  exists n. split; [exact En | exact H].
Defined.

(** ** Page sizes that are not positive *)

(** With a page size of 0 or below, the page-number guard of the revision
    with the 404 policy never fires: as soon as one job passes the filters
    the search resolves, whatever the page.  For a page size of 0 the page
    is empty and [totalPages] is [Infinity]; for a negative one
    [totalPages] is an integer that is 0 or negative. *)
Theorem search_nonpositive_limit_resolves :
  forall (fs : FileSystem Company.t) (q location : Param)
         (page limit : option Z),
    let p := default 1 page in
    let l := default 10 limit in
    let fj := filteredJobs Company.name q location
                (loaded job_summaries_json fs) in
    l <= 0 -> fj <> [] ->
    fst (JobsServiceRev.searchAndListJobs q location page limit fs) =
    resolve (successResponse
               {| Payload.jobs := paginatedJobs fj p l;
                  Payload.pagination := pagination fj p l |})
    /\ (l = 0 -> paginatedJobs fj p l = [] /\ totalPages fj l = Infinity)
    /\ (l < 0 -> exists n, totalPages fj l = Int n /\ n <= 0).
Proof.
  intros fs q location page limit p l fj Hl Hne.
  assert (Htot : 0 < total fj).
  { unfold total. destruct fj; [congruence | simpl; lia]. }
  assert (Hguard : gt (totalPages fj l) (Int 0) = false
                   \/ totalPages fj l = Infinity).
  { unfold totalPages, ceilDiv. destruct (l =? 0) eqn:E0.
    - right. destruct (total fj =? 0) eqn:Et; [lia | reflexivity].
    - left. cbn [gt]. apply Z.ltb_ge.
      assert (0 <= - total fj / l).
      { rewrite <- (Z.opp_involutive l), Zdiv.Zdiv_opp_opp.
        apply Z.div_pos; lia. }
      lia. }
  split; [|split].
  - rewrite Rev_search_outcome. cbv zeta. fold p l fj.
    rewrite (length_zero_false _ Hne).
    destruct Hguard as [H | H]; rewrite H.
    + rewrite andb_false_r. reflexivity.
    + reflexivity.
  - intros ->. split.
    + unfold paginatedJobs, endIndex, startIndex.
      rewrite Z.mul_0_r. cbn [Z.add]. unfold slice, relativeIndex.
      cbn [Z.ltb Z.compare].
      replace (Z.to_nat _) with 0%nat by lia. reflexivity.
    + unfold totalPages, ceilDiv. cbn [Z.eqb].
      destruct (total fj =? 0) eqn:Et; [lia | reflexivity].
  - intros Hneg. unfold totalPages, ceilDiv.
    destruct (l =? 0) eqn:E0; [lia|].
    eexists; split; [reflexivity|].
    assert (0 <= - total fj / l).
    { rewrite <- (Z.opp_involutive l), Zdiv.Zdiv_opp_opp.
      apply Z.div_pos; lia. }
    lia.
Qed.

Lemma search_nonpositive_limit_resolves_witness :
  deliveredJobs
    (fst (JobsServiceRev.searchAndListJobs undefined undefined (Some 9)
            (Some 0) Sample.files)) = []
  /\ exists r,
       fst (JobsServiceRev.searchAndListJobs undefined undefined (Some 9)
              (Some (-2)) Sample.files) = resolve (successResponse r).
Proof.
  split.
  - rewrite (proj1 (search_nonpositive_limit_resolves Sample.files undefined
                      undefined (Some 9) (Some 0) ltac:(simpl; lia)
                      ltac:(discriminate))).
    reflexivity.
  - eexists.
    exact (proj1 (search_nonpositive_limit_resolves Sample.files undefined
                    undefined (Some 9) (Some (-2)) ltac:(simpl; lia)
                    ltac:(discriminate))).
Defined.

(** ** How many jobs a page holds *)

Lemma slice_length_le {A : Type} (l : list A) (start n : Z) :
  0 <= n -> Z.of_nat (List.length (slice l start (start + n))) <= n.
Proof.
  intros Hn. unfold slice, relativeIndex. rewrite length_firstn.
  destruct (start <? 0) eqn:E1, (start + n <? 0) eqn:E2; lia.
Qed.

(** A page never holds more jobs than the page size, as long as the page
    size is not negative: this holds in both revisions for every page
    number, zero and negative ones included, and for a rejected search,
    which delivers nothing. *)
Theorem page_holds_at_most_limit :
  forall (fs : FileSystem Company.t) (legacy : FileSystem string)
         (q location : Param) (page limit : option Z),
    let l := default 10 limit in
    0 <= l ->
    Z.of_nat (List.length
                (deliveredJobs
                   (fst (JobsServiceRev.searchAndListJobs q location page
                           limit fs)))) <= l
    /\ Z.of_nat (List.length
                   (deliveredJobs
                      (fst (JobsService.searchAndListJobs q location page
                              limit legacy)))) <= l.
Proof.
  intros fs legacy q location page limit l Hl. split.
  - rewrite Rev_search_outcome. cbv zeta. fold l.
    destruct (List.length _ =? 0)%nat; [simpl; lia|].
    destruct (gt _ _ && gt _ _)%bool; [simpl; lia|].
    cbn [deliveredJobs Payload.jobs]. unfold paginatedJobs, endIndex.
    now apply slice_length_le.
  - rewrite search_outcome. cbv zeta. fold l.
    cbn [deliveredJobs Payload.jobs]. unfold paginatedJobs, endIndex.
    now apply slice_length_le.
Qed.

Lemma page_holds_at_most_limit_witness :
  Z.of_nat (List.length
              (deliveredJobs
                 (fst (JobsServiceRev.searchAndListJobs undefined undefined
                         (Some (-1)) (Some 2) Sample.files)))) <= 2.
Proof.
  exact (proj1 (page_holds_at_most_limit Sample.files Sample.legacyFiles
                  undefined undefined (Some (-1)) (Some 2)
                  ltac:(simpl; lia))).
Defined.

(** For a page size of at least 1 and a non-empty filtered sequence with
    [n] pages (in either revision's arithmetic): every page before the
    last is full, the last page holds the remainder, which is between 1 and
    the page size, and every page after the last is empty. *)
Theorem page_sizes :
  forall (C : Type) (fj : list (Job.t C)) (limit n : Z),
    1 <= limit -> fj <> [] -> totalPages fj limit = Int n ->
    (forall page, 1 <= page < n ->
                  Z.of_nat (List.length (paginatedJobs fj page limit)) = limit)
    /\ Z.of_nat (List.length (paginatedJobs fj n limit)) =
       total fj - (n - 1) * limit
    /\ 1 <= total fj - (n - 1) * limit <= limit
    /\ (forall page, n < page -> paginatedJobs fj page limit = []).
Proof.
  intros C fj limit n Hl Hne En.
  destruct (totalPages_pos fj limit Hl Hne) as [n' [En' [Hn1 Hn]]].
  rewrite En in En'. injection En' as <-.
  assert (Hlen : forall page, 1 <= page ->
            Z.of_nat (List.length (paginatedJobs fj page limit)) =
            Z.min limit (Z.max 0 (total fj - (page - 1) * limit))).
  { intros page Hp. rewrite paginatedJobs_window by assumption.
    rewrite length_firstn, length_skipn. unfold total. nia. }
  split; [|split; [|split]].
  - intros page Hp. rewrite Hlen by lia. nia.
  - rewrite Hlen by lia. nia.
  - nia.
  - intros page Hp.
    assert (H0 : Z.of_nat (List.length (paginatedJobs fj page limit)) = 0).
    { rewrite Hlen by lia. nia. }
    destruct (paginatedJobs fj page limit); [reflexivity | simpl in H0; lia].
Qed.

Lemma page_sizes_witness :
  Z.of_nat (List.length (paginatedJobs Sample.summaries 2 2)) =
  total Sample.summaries - (2 - 1) * 2.
Proof.
  exact (proj1 (proj2 (page_sizes Company.t Sample.summaries 2 2
                         ltac:(lia) ltac:(discriminate) eq_refl))).
Defined.

(** ** Pages below 1 *)

(** A negative page is read from the end of the list: for a page size of
    at least 1, page [-m] holds the jobs that page [m + 1] of the reversed
    sequence holds, in their original order.  (Page 0 is empty, so the last
    [limit] jobs belong to no page below 1.)  The revision with the 404
    policy resolves with that page whenever some job passes the filters. *)
Theorem negative_page_counts_from_the_end :
  forall (fs : FileSystem Company.t) (q location : Param)
         (page : Z) (limit : option Z),
    let l := default 10 limit in
    let fj := filteredJobs Company.name q location
                (loaded job_summaries_json fs) in
    1 <= l -> page <= -1 ->
    (forall (C : Type) (filtered : list (Job.t C)),
        paginatedJobs filtered page l =
        rev (paginatedJobs (rev filtered) (1 - page) l))
    /\ (fj <> [] ->
        deliveredJobs
          (fst (JobsServiceRev.searchAndListJobs q location (Some page)
                  limit fs)) =
        rev (paginatedJobs (rev fj) (1 - page) l)
        /\ exists r,
            fst (JobsServiceRev.searchAndListJobs q location (Some page)
                   limit fs) = resolve (successResponse r)).
Proof.
  intros fs q location page limit l fj Hl Hp.
  assert (Hrev : forall (C : Type) (filtered : list (Job.t C)),
            paginatedJobs filtered page l =
            rev (paginatedJobs (rev filtered) (1 - page) l)).
  { intros C filtered.
    rewrite (paginatedJobs_window (rev filtered)) by lia.
    rewrite skipn_rev, firstn_rev, rev_involutive, length_firstn.
    unfold paginatedJobs, endIndex, startIndex, slice, relativeIndex.
    set (len := List.length filtered).
    replace ((page - 1) * l <? 0) with true
      by (symmetry; apply Z.ltb_lt; nia).
    replace ((page - 1) * l + l <? 0) with true
      by (symmetry; apply Z.ltb_lt; nia).
    rewrite firstn_skipn_comm. f_equal; [|f_equal]; nia. }
  split; [exact Hrev|].
  intros Hne.
  destruct (totalPages_pos fj l Hl Hne) as [n [En [Hn1 _]]].
  rewrite Rev_search_outcome. cbv zeta. cbn [default]. fold l fj.
  rewrite (length_zero_false _ Hne), En. cbn [gt].
  replace (n <? page) with false by (symmetry; apply Z.ltb_ge; lia).
  cbn [andb deliveredJobs Payload.jobs].
  split; [apply Hrev | eexists; reflexivity].
Qed.

Lemma negative_page_counts_from_the_end_witness :
  deliveredJobs
    (fst (JobsServiceRev.searchAndListJobs undefined undefined (Some (-1))
            (Some 1) Sample.files)) = [Sample.designer].
Proof.
  rewrite (proj1 (proj2 (negative_page_counts_from_the_end Sample.files
                           undefined undefined (-1) (Some 1)
                           ltac:(simpl; lia) ltac:(lia))
                   ltac:(discriminate))).
  reflexivity.
Defined.

(** ** Pages past the last one in [src/services/JobsService.js] *)

(** [src/services/JobsService.js] never rejects a search.  For a page and a
    page size of at least 1 it resolves with an empty list of jobs exactly
    when no job passes the filters or the page is greater than the number
    of pages [n]; the descriptor still reports the total and [n]. *)
Theorem legacy_search_past_last_page_is_empty :
  forall (legacy : FileSystem string) (q location : Param)
         (page limit : option Z),
    let p := default 1 page in
    let l := default 10 limit in
    let fj := filteredJobs (fun company => company) q location
                (loaded jobs_json legacy) in
    1 <= p -> 1 <= l ->
    exists r n,
      fst (JobsService.searchAndListJobs q location page limit legacy) =
      resolve (successResponse r)
      /\ Pagination.total (Payload.pagination r) = total fj
      /\ Pagination.totalPages (Payload.pagination r) = Int n
      /\ (Payload.jobs r = [] <-> fj = [] \/ n < p).
Proof.
  intros legacy q location page limit p l fj Hp Hl.
  destruct (ceilDiv_pos (total fj) l ltac:(lia)) as [n [En Hn]].
  rewrite search_outcome. cbv zeta. fold p l fj.
  eexists; exists n. split; [reflexivity|].
  cbn [Payload.jobs Payload.pagination pagination Pagination.total
       Pagination.totalPages].
  split; [reflexivity|]. split; [exact En|].
  assert (Hlen : Z.of_nat (List.length (paginatedJobs fj p l)) =
                 Z.min l (Z.max 0 (total fj - (p - 1) * l))).
  { rewrite paginatedJobs_window by assumption.
    rewrite length_firstn, length_skipn. unfold total. nia. }
  split.
  - intros E. rewrite E in Hlen. cbn [List.length] in Hlen.
    destruct fj as [|j fj']; [now left | right].
    unfold total in *. cbn [List.length] in *. nia.
  - intros [E | Hnp].
    + rewrite E. unfold paginatedJobs, slice. cbn [List.length].
      rewrite skipn_nil. apply firstn_nil.
    + destruct (paginatedJobs fj p l); [reflexivity|].
      cbn [List.length] in Hlen. nia.
Qed.

Lemma legacy_search_past_last_page_is_empty_witness :
  exists r n,
    fst (JobsService.searchAndListJobs undefined undefined (Some 2) None
           Sample.legacyFiles) = resolve (successResponse r)
    /\ Pagination.total (Payload.pagination r) = total Sample.legacySummaries
    /\ Pagination.totalPages (Payload.pagination r) = Int n
    /\ (Payload.jobs r = [] <-> Sample.legacySummaries = [] \/ n < 2).
Proof.
  exact (legacy_search_past_last_page_is_empty Sample.legacyFiles
           undefined undefined (Some 2) None
           ltac:(simpl; lia) ltac:(simpl; lia)).
Defined.

(** ** Omitted page and page size *)

(** A search without [page] and [limit] delivers the first ten jobs that
    pass the filters (all of them when there are fewer; none, with a
    rejection, in the revision with the 404 policy when there are none). *)
Theorem default_search_delivers_first_ten :
  forall (fs : FileSystem Company.t) (legacy : FileSystem string)
         (q location : Param),
    deliveredJobs
      (fst (JobsServiceRev.searchAndListJobs q location None None fs)) =
    firstn 10 (filteredJobs Company.name q location
                 (loaded job_summaries_json fs))
    /\ deliveredJobs
         (fst (JobsService.searchAndListJobs q location None None legacy)) =
       firstn 10 (filteredJobs (fun company => company) q location
                    (loaded jobs_json legacy)).
Proof.
  intros fs legacy q location. split.
  - rewrite Rev_search_outcome. cbv zeta. cbn [default].
    set (fj := filteredJobs Company.name q location _).
    destruct fj as [|j fj'] eqn:Efj; [reflexivity|].
    rewrite <- Efj.
    assert (Hne : fj <> []) by (rewrite Efj; discriminate).
    destruct (totalPages_pos fj 10 ltac:(lia) Hne) as [n [En [Hn1 _]]].
    rewrite (length_zero_false _ Hne), En. cbn [gt].
    replace (n <? 1) with false by (symmetry; apply Z.ltb_ge; lia).
    cbn [andb deliveredJobs Payload.jobs].
    rewrite paginatedJobs_window by lia. reflexivity.
  - rewrite search_outcome. cbv zeta. cbn [default deliveredJobs Payload.jobs].
    rewrite paginatedJobs_window by lia. reflexivity.
Qed.

(** ** The two revisions side by side *)

Lemma slice_map {A B : Type} (f : A -> B) (l : list A) (a b : Z) :
  slice (map f l) a b = map f (slice l a b).
Proof.
  unfold slice. now rewrite length_map, skipn_map, firstn_map.
Qed.

Lemma filteredJobs_companyAsString (q location : Param)
  (allJobs : list (Job.t Company.t)) :
  filteredJobs (fun company => company) q location
    (map companyAsString allJobs) =
  map companyAsString (filteredJobs Company.name q location allJobs).
Proof.
  unfold filteredJobs.
  destruct (truthy q), (truthy location);
    rewrite ?filter_map_swap; reflexivity.
Qed.

(** When [jobs.json] holds the jobs of [job-summaries.json] with each
    company object replaced by its name, every search that the revision
    with the 404 policy resolves is resolved by
    [src/services/JobsService.js] with the same jobs (in that shape) and
    the same descriptor: the two revisions differ only where the newer one
    rejects. *)
Theorem revisions_agree_on_resolved_searches :
  forall (fs : FileSystem Company.t) (legacy : FileSystem string)
         (q location : Param) (page limit : option Z)
         (r : Payload.t (Job.t Company.t)),
    loaded jobs_json legacy =
    map companyAsString (loaded job_summaries_json fs) ->
    fst (JobsServiceRev.searchAndListJobs q location page limit fs) =
    resolve (successResponse r) ->
    fst (JobsService.searchAndListJobs q location page limit legacy) =
    resolve (successResponse
               {| Payload.jobs := map companyAsString (Payload.jobs r);
                  Payload.pagination := Payload.pagination r |}).
Proof.
  intros fs legacy q location page limit r Hdata.
  rewrite Rev_search_outcome, search_outcome. cbv zeta.
  rewrite Hdata, filteredJobs_companyAsString.
  destruct (List.length _ =? 0)%nat; [discriminate|].
  destruct (gt _ _ && gt _ _)%bool; [discriminate|].
  intros H. injection H as <-.
  cbn [Payload.jobs Payload.pagination].
  unfold paginatedJobs, pagination, totalPages, total.
  now rewrite slice_map, length_map.
Qed.

Lemma revisions_agree_on_resolved_searches_witness :
  fst (JobsService.searchAndListJobs (str "designer") undefined None None
         {| jobs_json := Document (Some (map companyAsString
                                           Sample.summaries));
            job_summaries_json := Unreadable;
            job_details_json := Unreadable |}) =
  resolve (successResponse
    {| Payload.jobs := [companyAsString Sample.designer];
       Payload.pagination :=
         {| Pagination.total := 1; Pagination.page := 1;
            Pagination.limit := 10; Pagination.totalPages := Int 1 |} |}).
Proof.
  exact (revisions_agree_on_resolved_searches Sample.files
           {| jobs_json := Document (Some (map companyAsString
                                             Sample.summaries));
              job_summaries_json := Unreadable;
              job_details_json := Unreadable |}
           (str "designer") undefined None None
           {| Payload.jobs := [Sample.designer];
              Payload.pagination :=
                {| Pagination.total := 1; Pagination.page := 1;
                   Pagination.limit := 10;
                   Pagination.totalPages := Int 1 |} |}
           eq_refl eq_refl).
Defined.

(** ** More on the filters *)


Lemma Subseq_filter_weaken {A : Type} (f g : A -> bool) (l : list A) :
  (forall a, f a = true -> g a = true) ->
  Subseq (filter f l) (filter g l).
Proof.
  intros Hfg. induction l as [|x l IH]; simpl; [constructor|].
  destruct (f x) eqn:Ef.
  - rewrite (Hfg x Ef). now apply Subseq_keep.
  - destruct (g x); [constructor|]; assumption.
Qed.






Lemma filteredJobs_steps {C : Type} (companyName : C -> string)
  (q location : Param) (allJobs : list (Job.t C)) :
  filteredJobs companyName q location allJobs =
  (if truthy location
   then filter (matchesLocation (toLowerCase (text location)))
   else fun l => l)
    ((if truthy q
      then filter (matchesQuery companyName (toLowerCase (text q)))
      else fun l => l) allJobs).
Proof. unfold filteredJobs. destruct (truthy q), (truthy location); reflexivity. Qed.



(** The [q] filter looks at the location too, so a term given as [q] keeps
    every job that the same term keeps as [location]; giving the term in
    both parameters is the same as giving it as [location] alone (in either
    revision). *)
Theorem location_term_as_q :
  forall (C : Type) (companyName : C -> string) (term : string)
         (allJobs : list (Job.t C)),
    Subseq (filteredJobs companyName undefined (str term) allJobs)
           (filteredJobs companyName (str term) undefined allJobs)
    /\ filteredJobs companyName (str term) (str term) allJobs =
       filteredJobs companyName undefined (str term) allJobs.
Proof.
  intros C companyName term allJobs.
  rewrite !filteredJobs_steps. cbn [text truthy].
  destruct term as [|c s]; [split; [apply Subseq_refl | reflexivity]|].
  set (t := toLowerCase (String c s)).
  assert (H : forall job : Job.t C,
             matchesLocation t job = true ->
             matchesQuery companyName t job = true).
  { intros job. unfold matchesLocation, matchesQuery. intros ->.
    apply orb_true_r. }
  split.
  - now apply Subseq_filter_weaken.
  - rewrite filter_filter. apply filter_ext. intros job.
    destruct (matchesLocation t job) eqn:E.
    + now rewrite (H job E).
    + apply andb_false_r.
Qed.






Lemma filter_idempotent {A : Type} (f : A -> bool) (l : list A) :
  filter f (filter f l) = filter f l.
Proof.
  rewrite filter_filter. apply filter_ext. intros a. apply andb_diag.
Qed.

(** Whether a job is kept depends on that job alone: filtering two
    collections put end to end gives the two filtered collections put end
    to end; filtering a filtered collection again with the same terms
    changes nothing; and the filtered collection is never longer than the
    collection (in either revision). *)
Theorem filtering_is_per_job :
  forall (C : Type) (companyName : C -> string) (q location : Param)
         (jobs1 jobs2 : list (Job.t C)),
    filteredJobs companyName q location (jobs1 ++ jobs2) =
    filteredJobs companyName q location jobs1 ++
    filteredJobs companyName q location jobs2
    /\ filteredJobs companyName q location
         (filteredJobs companyName q location jobs1) =
       filteredJobs companyName q location jobs1
    /\ total (filteredJobs companyName q location jobs1) <= total jobs1.
Proof.
  intros C companyName q location jobs1 jobs2.
  rewrite !filteredJobs_steps.
  split; [|split].
  - destruct (truthy q), (truthy location);
      rewrite ?filter_app; reflexivity.
  - destruct (truthy q), (truthy location);
      rewrite ?filter_idempotent; try reflexivity.
    rewrite !filter_filter. apply filter_ext. intros job.
    destruct (matchesQuery _ _ job), (matchesLocation _ job); reflexivity.
  - unfold total. apply Nat2Z.inj_le.
    destruct (truthy q), (truthy location).
    + etransitivity; apply filter_length_le.
    + apply filter_length_le.
    + apply filter_length_le.
    + apply Nat.le_refl.
Qed.

Lemma Subseq_In {A : Type} (l1 l2 : list A) (x : A) :
  Subseq l1 l2 -> In x l1 -> In x l2.
Proof.
  induction 1 as [|y l1 l2 _ IH|y l1 l2 _ IH]; simpl; intros Hin.
  - assumption.
  - right. now apply IH.
  - destruct Hin as [-> | Hin]; [now left | right; now apply IH].
Qed.

Lemma deliveredJobs_Rev_Subseq (fs : FileSystem Company.t)
  (q location : Param) (page limit : option Z) :
  Subseq (deliveredJobs
            (fst (JobsServiceRev.searchAndListJobs q location page limit fs)))
         (filteredJobs Company.name q location (loaded job_summaries_json fs)).
Proof.
  rewrite Rev_search_outcome. cbv zeta.
  set (fj := filteredJobs Company.name q location _).
  assert (Hnil : Subseq [] fj) by (induction fj; constructor; assumption).
  destruct (List.length fj =? 0)%nat; [exact Hnil|].
  destruct (gt _ _ && gt _ _)%bool; [exact Hnil|].
  apply Subseq_slice.
Qed.

Lemma filteredJobs_In {C : Type} (companyName : C -> string)
  (q location : Param) (allJobs : list (Job.t C)) (job : Job.t C) :
  In job (filteredJobs companyName q location allJobs) <->
  In job allJobs
  /\ (truthy q = true -> QueryMatches companyName (text q) job)
  /\ (truthy location = true -> LocationMatches (text location) job).
Proof.
  rewrite filteredJobs_steps.
  destruct (truthy q), (truthy location);
    rewrite ?filter_In, ?matchesQuery_spec, ?matchesLocation_spec;
    intuition congruence.
Qed.

(** Whatever the page and the page size, negative ones included, a search
    never delivers a job that is not in the collection or that fails a
    filter in force, and it delivers the jobs in collection order (both
    revisions). *)
Theorem delivered_jobs_pass_the_filters :
  forall (fs : FileSystem Company.t) (legacy : FileSystem string)
         (q location : Param) (page limit : option Z),
    let delivered :=
      deliveredJobs
        (fst (JobsServiceRev.searchAndListJobs q location page limit fs)) in
    let delivered' :=
      deliveredJobs
        (fst (JobsService.searchAndListJobs q location page limit legacy)) in
    Subseq delivered (loaded job_summaries_json fs)
    /\ (forall job, In job delivered ->
          (truthy q = true -> QueryMatches Company.name (text q) job)
          /\ (truthy location = true ->
              LocationMatches (text location) job))
    /\ Subseq delivered' (loaded jobs_json legacy)
    /\ (forall job, In job delivered' ->
          (truthy q = true ->
           QueryMatches (fun company => company) (text q) job)
          /\ (truthy location = true ->
              LocationMatches (text location) job)).
Proof.
  intros fs legacy q location page limit delivered delivered'.
  assert (H1 : Subseq delivered
                 (filteredJobs Company.name q location
                    (loaded job_summaries_json fs)))
    by apply deliveredJobs_Rev_Subseq.
  assert (H2 : Subseq delivered'
                 (filteredJobs (fun company => company) q location
                    (loaded jobs_json legacy))).
  { unfold delivered'. rewrite search_outcome. cbv zeta.
    cbn [deliveredJobs Payload.jobs]. apply Subseq_slice. }
  split; [|split; [|split]].
  - eapply Subseq_trans; [exact H1 | apply filteredJobs_Subseq].
  - intros job Hin. apply (Subseq_In _ _ _ H1) in Hin.
    apply filteredJobs_In in Hin. tauto.
  - eapply Subseq_trans; [exact H2 | apply filteredJobs_Subseq].
  - intros job Hin. apply (Subseq_In _ _ _ H2) in Hin.
    apply filteredJobs_In in Hin. tauto.
Qed.

Lemma delivered_jobs_pass_the_filters_witness :
  LocationMatches "CA" Sample.engineer.
Proof.
  refine (proj2 (proj1 (proj2 (delivered_jobs_pass_the_filters Sample.files
                                 Sample.legacyFiles undefined (str "CA")
                                 (Some (-1)) (Some 1)))
                   Sample.engineer _) eq_refl).
  cbv. tauto.
Defined.

(** ** More on the detail lookup *)

Lemma lookup_sound {C : Type} (details : list (Detail.t C)) (jobId : string)
  (missing : Settled (Detail.t C)) :
  (forall r, missing <> resolve r) ->
  let outcome :=
    match find (fun job => (Detail.id job =? jobId)%string) details with
    | None => missing
    | Some jobDetail => resolve (successResponse jobDetail)
    end in
  (forall d, outcome = resolve (successResponse d) ->
             In d details /\ Detail.id d = jobId)
  /\ ((exists d, outcome = resolve (successResponse d)) <->
      In jobId (map Detail.id details))
  /\ (outcome = missing <-> ~ In jobId (map Detail.id details)).
Proof.
  intros Hmissing outcome. unfold outcome.
  destruct (find _ details) as [d0|] eqn:Ef.
  - pose proof (find_some _ _ Ef) as [Hin Hid].
    apply String.eqb_eq in Hid.
    assert (Hmem : In jobId (map Detail.id details)).
    { rewrite <- Hid. now apply in_map. }
    split; [|split].
    + intros d H. injection H as <-. now split.
    + split; [intros _; exact Hmem | intros _; now exists d0].
    + split; [intros H; symmetry in H; now apply Hmissing in H | tauto].
  - assert (Hnot : ~ In jobId (map Detail.id details)).
    { rewrite in_map_iff. intros [d [Hid Hin]].
      pose proof (find_none _ _ Ef d Hin) as H. cbv beta in H.
      apply String.eqb_neq in H. contradiction. }
    split; [|split].
    + intros d H. now apply Hmissing in H.
    + split; [intros [d H]; now apply Hmissing in H | tauto].
    + tauto.
Qed.

(** The lookup compares ids exactly and invents nothing (both revisions):
    a record it resolves with is a record of the collection whose id is the
    requested one; it resolves exactly when the id occurs in the
    collection, and is rejected as NotFound "Job not found" exactly when it
    does not. *)
Theorem getJobDetails_resolves_iff_present :
  forall (fs : FileSystem Company.t) (legacy : FileSystem string)
         (jobId : string),
    let details := loaded job_details_json fs in
    let details' := loaded job_details_json legacy in
    let outcome := fst (JobsServiceRev.getJobDetails jobId fs) in
    let outcome' := fst (JobsService.getJobDetails jobId legacy) in
    (forall d, outcome = resolve (successResponse d) ->
               In d details /\ Detail.id d = jobId)
    /\ ((exists d, outcome = resolve (successResponse d)) <->
        In jobId (map Detail.id details))
    /\ (NotFound "Job not found" outcome <->
        ~ In jobId (map Detail.id details))
    /\ (forall d, outcome' = resolve (successResponse d) ->
                  In d details' /\ Detail.id d = jobId)
    /\ ((exists d, outcome' = resolve (successResponse d)) <->
        In jobId (map Detail.id details'))
    /\ (NotFound "Job not found" outcome' <->
        ~ In jobId (map Detail.id details')).
Proof.
  intros fs legacy jobId details details' outcome outcome'.
  unfold outcome, outcome'.
  rewrite Rev_detail_outcome, detail_outcome. cbn [fst].
  fold details details'.
  destruct (lookup_sound details jobId
              (reject (rejectResponse
                         (ErrorObject "Job not found" (Some 404)) 404))
              ltac:(discriminate)) as [H1 [H2 H3]].
  destruct (lookup_sound details' jobId
              (reject (rejectResponse (ErrorText "Job not found") 404))
              ltac:(discriminate)) as [H1' [H2' H3']].
  split; [exact H1|]. split; [exact H2|]. split.
  { rewrite <- H3. split.
    - intros [e [H _]].
      destruct (find _ details); [discriminate H | reflexivity].
    - intros ->. eexists; split; reflexivity. }
  split; [exact H1'|]. split; [exact H2'|].
  rewrite <- H3'. split.
  - intros [e [H _]].
    destruct (find _ details'); [discriminate H | reflexivity].
  - intros ->. eexists; split; reflexivity.
Qed.

Lemma getJobDetails_resolves_iff_present_witness :
  Detail.id (Sample.detail "1" "Senior Engineer" "TechCorp Solutions"%string) =
  "1"%string.
Proof.
  exact (proj2 (proj1 (proj2 (proj2 (proj2
           (getJobDetails_resolves_iff_present Sample.files
              Sample.legacyFiles "1"))))
           (Sample.detail "1" "Senior Engineer" "TechCorp Solutions"%string)
           eq_refl)).
Defined.

(** When [job-details.json] cannot be read, has no [jobDetails] array, or
    holds an empty one, every lookup is rejected as NotFound "Job not
    found" and nothing else happens (both revisions). *)
Theorem getJobDetails_degraded_load :
  forall (fs : FileSystem Company.t) (legacy : FileSystem string)
         (jobId : string),
    (job_details_json fs = Unreadable \/
     job_details_json fs = Document None \/
     job_details_json fs = Document (Some []) ->
     NotFound "Job not found" (fst (JobsServiceRev.getJobDetails jobId fs)))
    /\ (job_details_json legacy = Unreadable \/
        job_details_json legacy = Document None \/
        job_details_json legacy = Document (Some []) ->
        NotFound "Job not found"
          (fst (JobsService.getJobDetails jobId legacy))).
Proof.
  intros fs legacy jobId. split.
  - intros H. rewrite Rev_detail_outcome. cbn [fst].
    replace (loaded job_details_json fs) with (@nil (Detail.t Company.t)).
    + eexists; split; reflexivity.
    + unfold loaded, loadRecords.
      destruct H as [-> | [-> | ->]]; reflexivity.
  - intros H. rewrite detail_outcome. cbn [fst].
    replace (loaded job_details_json legacy) with (@nil (Detail.t string)).
    + eexists; split; reflexivity.
    + unfold loaded, loadRecords.
      destruct H as [-> | [-> | ->]]; reflexivity.
Qed.

Lemma getJobDetails_degraded_load_witness :
  NotFound "Job not found"
    (fst (JobsServiceRev.getJobDetails
            "123e4567-e89b-12d3-a456-426614174000" Sample.broken))
  /\ NotFound "Job not found"
       (fst (JobsService.getJobDetails "1" Sample.broken)).
Proof.
  split.
  - apply (proj1 (getJobDetails_degraded_load Sample.broken Sample.broken
                    "123e4567-e89b-12d3-a456-426614174000")).
    left; reflexivity.
  - apply (proj2 (getJobDetails_degraded_load Sample.broken Sample.broken
                    "1")).
    left; reflexivity.
Defined.

(** ** From a search result to its details *)

(** When every job summary has a detail record under the same id, the
    detail of every job that a search delivers can be fetched: the lookup
    of its id resolves with a detail record that carries this id (revision
    with the 404 policy, any filters, page and page size). *)
Theorem delivered_jobs_have_details :
  forall (fs : FileSystem Company.t) (q location : Param)
         (page limit : option Z) (job : Job.t Company.t),
    (forall summary, In summary (loaded job_summaries_json fs) ->
                     In (Job.id summary)
                        (map Detail.id (loaded job_details_json fs))) ->
    In job (deliveredJobs
              (fst (JobsServiceRev.searchAndListJobs q location page limit
                      fs))) ->
    exists d,
      fst (JobsServiceRev.getJobDetails (Job.id job) fs) =
      resolve (successResponse d)
      /\ In d (loaded job_details_json fs)
      /\ Detail.id d = Job.id job.
Proof.
  intros fs q location page limit job Hdata Hin.
  assert (Hall : In job (loaded job_summaries_json fs)).
  { eapply Subseq_In; [|exact Hin].
    eapply Subseq_trans;
      [apply deliveredJobs_Rev_Subseq | apply filteredJobs_Subseq]. }
  apply Hdata in Hall.
  rewrite Rev_detail_outcome. cbn [fst].
  destruct (lookup_sound (loaded job_details_json fs) (Job.id job)
              (reject (rejectResponse
                         (ErrorObject "Job not found" (Some 404)) 404))
              ltac:(discriminate)) as [H1 [H2 _]].
  destruct (proj2 H2 Hall) as [d Hd].
  exists d. split; [exact Hd|]. now apply H1.
Qed.

Lemma delivered_jobs_have_details_witness :
  exists d,
    fst (JobsServiceRev.getJobDetails (Job.id Sample.designer)
           {| jobs_json := Unreadable;
              job_summaries_json :=
                Document (Some [Sample.engineer; Sample.designer]);
              job_details_json := job_details_json Sample.files |}) =
    resolve (successResponse d)
    /\ In d (loaded job_details_json Sample.files)
    /\ Detail.id d = Job.id Sample.designer.
Proof.
  apply (delivered_jobs_have_details
           {| jobs_json := Unreadable;
              job_summaries_json :=
                Document (Some [Sample.engineer; Sample.designer]);
              job_details_json := job_details_json Sample.files |}
           (str "design") undefined None None Sample.designer).
  - intros summary [<- | [<- | []]]; cbv; tauto.
  - cbv. tauto.
Defined.

(** * The company-id migration and the table constraints *)

Lemma remapped_cases (t1 t2 t3 t4 : Z) (row : JobRow.t) :
  (remapped t1 t2 t3 t4 row = row
   /\ forall c, JobRow.company_id row = Some c ->
                ~ In c invalid_company_ids)
  \/ (exists t c,
        remapped t1 t2 t3 t4 row =
        update_jobs_updated_at t (JobRow.set_company_id (Some c) row)
        /\ In c ["comp-001"; "comp-002"; "comp-003"]%string
        /\ exists c0, JobRow.company_id row = Some c0
                      /\ In c0 invalid_company_ids).
Proof.
  unfold remapped. destruct (JobRow.company_id row) as [c0|] eqn:Ec.
  - destruct (existsb (String.eqb c0) invalid_company_ids) eqn:Ein.
    + right.
      assert (Hin : In c0 invalid_company_ids).
      { apply existsb_exists in Ein. destruct Ein as [x [Hx Hc]].
        apply String.eqb_eq in Hc. now subst. }
      destruct (includes (JobRow.company row) "TechCorp");
        [|destruct (includes (JobRow.company row) "StartupHub");
          [|destruct (includes (JobRow.company row) "Global")]];
        eexists; eexists; (split; [reflexivity|]);
        (split; [simpl; tauto | now exists c0]).
    + left. split; [reflexivity|].
      intros c H Hin. injection H as <-.
      assert (existsb (String.eqb c0) invalid_company_ids = true).
      { apply existsb_exists. exists c0. split; [assumption|].
        apply String.eqb_refl. }
      congruence.
  - left. split; [reflexivity | discriminate].
Qed.

(** The four statements, followed on one row. *)
Lemma remapped_row_steps (t1 t2 t3 t4 : Z) (row : JobRow.t) :
  (let step t c condition (r : JobRow.t) :=
     if where_true (condition r)
     then update_jobs_updated_at t (JobRow.set_company_id (Some c) r)
     else r in
   step t4 "comp-001"%string
     (fun r => sql_in (JobRow.company_id r) invalid_company_ids)
     (step t3 "comp-003"%string
        (fun r => sql_and (sql_in (JobRow.company_id r) invalid_company_ids)
                          (like_contains (JobRow.company r) "Global"))
        (step t2 "comp-002"%string
           (fun r => sql_and
                       (sql_in (JobRow.company_id r) invalid_company_ids)
                       (like_contains (JobRow.company r) "StartupHub"))
           (step t1 "comp-001"%string
              (fun r => sql_and
                          (sql_in (JobRow.company_id r) invalid_company_ids)
                          (like_contains (JobRow.company r) "TechCorp"))
              row)))) =
  remapped t1 t2 t3 t4 row.
Proof.
  cbv zeta.
  unfold remapped, like_contains, sql_in.
  destruct (JobRow.company_id row) as [c0|] eqn:Ec; cbn [option_map].
  - destruct (existsb (String.eqb c0) invalid_company_ids) eqn:Ein.
    + destruct (includes (JobRow.company row) "TechCorp") eqn:E1;
        cbn [sql_and where_true].
      { reflexivity. }
      rewrite Ec. cbn [option_map]. rewrite Ein.
      destruct (includes (JobRow.company row) "StartupHub") eqn:E2;
        cbn [sql_and where_true].
      { reflexivity. }
      rewrite Ec. cbn [option_map]. rewrite Ein.
      destruct (includes (JobRow.company row) "Global") eqn:E3;
        cbn [sql_and where_true].
      { reflexivity. }
      rewrite Ec. cbn [option_map]. rewrite Ein. reflexivity.
    + destruct (includes (JobRow.company row) "TechCorp");
        cbn [sql_and where_true]; rewrite Ec; cbn [option_map]; rewrite Ein;
        destruct (includes (JobRow.company row) "StartupHub");
        cbn [sql_and where_true]; rewrite Ec; cbn [option_map]; rewrite Ein;
        destruct (includes (JobRow.company row) "Global");
        cbn [sql_and where_true]; rewrite Ec; cbn [option_map]; rewrite Ein;
        reflexivity.
  - destruct (includes (JobRow.company row) "TechCorp");
      cbn [sql_and where_true]; rewrite Ec; cbn [option_map];
      destruct (includes (JobRow.company row) "StartupHub");
      cbn [sql_and where_true]; rewrite Ec; cbn [option_map];
      destruct (includes (JobRow.company row) "Global");
      cbn [sql_and where_true]; rewrite Ec; reflexivity.
Qed.

Lemma remap_company_ids_map (t1 t2 t3 t4 : Z) (jobs : list JobRow.t) :
  remap_company_ids t1 t2 t3 t4 jobs = map (remapped t1 t2 t3 t4) jobs.
Proof.
  unfold remap_company_ids, update_jobs.
  rewrite !map_map. apply map_ext. intros row.
  apply (remapped_row_steps t1 t2 t3 t4 row).
Qed.

(** Run in their order, the four [UPDATE] statements of step 1 treat every
    row on its own and amount to one decision per row: a row whose
    [company_id] is none of comp-004 to comp-008 (or is NULL) is not
    touched; any other row is re-pointed to comp-001 if its company name
    contains "TechCorp", else to comp-002 if it contains "StartupHub", else
    to comp-003 if it contains "Global", else to comp-001, and gets the
    time of the statement that re-pointed it as [updated_at].  A row
    re-pointed by one statement is out of reach of the later ones. *)
Theorem remap_company_ids_decides_per_row :
  forall (t1 t2 t3 t4 : Z) (jobs : list JobRow.t),
    remap_company_ids t1 t2 t3 t4 jobs = map (remapped t1 t2 t3 t4) jobs
    /\ forall i : nat,
         nth_error (remap_company_ids t1 t2 t3 t4 jobs) i =
         option_map (remapped t1 t2 t3 t4) (nth_error jobs i).
Proof.
  intros t1 t2 t3 t4 jobs. split.
  - apply remap_company_ids_map.
  - intros i. rewrite remap_company_ids_map. apply nth_error_map.
Qed.

Lemma remapped_valid (t1 t2 t3 t4 : Z) (jobs : list JobRow.t)
  (row : JobRow.t) (c : string) :
  In row (remap_company_ids t1 t2 t3 t4 jobs) ->
  JobRow.company_id row = Some c ->
  ~ In c invalid_company_ids.
Proof.
  intros Hin Hc. rewrite remap_company_ids_map in Hin.
  apply in_map_iff in Hin. destruct Hin as [old [<- _]].
  destruct (remapped_cases t1 t2 t3 t4 old)
    as [[E H] | [t [c' [E [Hc' _]]]]]; rewrite E in Hc.
  - now apply H.
  - cbn in Hc. injection Hc as <-.
    simpl in Hc'. simpl. intuition (subst; discriminate).
Qed.

(** After step 1 no row of [jobs] carries one of the ids comp-004 to
    comp-008, whatever the table held before. *)
Theorem remap_company_ids_leaves_no_invalid_id :
  forall (t1 t2 t3 t4 : Z) (jobs : list JobRow.t) (row : JobRow.t) (c : string),
    In row (remap_company_ids t1 t2 t3 t4 jobs) ->
    JobRow.company_id row = Some c ->
    ~ In c invalid_company_ids.
Proof.
  intros t1 t2 t3 t4 jobs row c Hin Hc Hbad.
  exact (remapped_valid t1 t2 t3 t4 jobs row c Hin Hc Hbad).
Qed.

Lemma remap_company_ids_leaves_no_invalid_id_witness :
  ~ In "comp-002"%string invalid_company_ids.
Proof.
  apply (remap_company_ids_leaves_no_invalid_id 1 2 3 4 SampleRows.jobs
           (update_jobs_updated_at 2
              (JobRow.set_company_id (Some "comp-002"%string)
                 (SampleRows.row "234f5678-f89c-23e4-b567-537725285111"
                    "StartupHub Global" (Some "comp-005"%string))))).
  - cbv. tauto.
  - reflexivity.
Defined.

(** Step 1 neither adds, drops nor reorders rows, and changes no column
    other than [company_id] and [updated_at]; a row whose [company_id] is
    NULL or is none of comp-004 to comp-008 comes out exactly as it went
    in, [updated_at] included. *)
Theorem remap_company_ids_touches_only_invalid_rows :
  forall (t1 t2 t3 t4 : Z) (jobs : list JobRow.t),
    Forall2
      (fun old new =>
         same_other_columns old new
         /\ ((forall c, JobRow.company_id old = Some c ->
                        ~ In c invalid_company_ids) ->
             new = old))
      jobs (remap_company_ids t1 t2 t3 t4 jobs).
Proof.
  intros t1 t2 t3 t4 jobs. rewrite remap_company_ids_map.
  induction jobs as [|row jobs IH]; simpl; constructor; [|exact IH].
  destruct (remapped_cases t1 t2 t3 t4 row)
    as [[E H] | [t [c [E [_ [c0 [Hc0 Hin]]]]]]]; rewrite E.
  - split; [reflexivity | reflexivity].
  - split; [reflexivity|].
    intros Hvalid. exfalso. exact (Hvalid c0 Hc0 Hin).
Qed.

Lemma remap_company_ids_touches_only_invalid_rows_witness :
  remap_company_ids 1 2 3 4
    [SampleRows.row "45678901-2345-6789-abcd-ef0123456789" "TechCorp"
       (Some "comp-002"%string)] =
  [SampleRows.row "45678901-2345-6789-abcd-ef0123456789" "TechCorp"
     (Some "comp-002"%string)].
Proof.
  pose proof (remap_company_ids_touches_only_invalid_rows 1 2 3 4
                [SampleRows.row "45678901-2345-6789-abcd-ef0123456789"
                   "TechCorp" (Some "comp-002"%string)]) as H.
  apply Forall2_cons_iff in H. destruct H as [[_ H] _].
  unfold remap_company_ids, update_jobs in *. cbn [map] in *.
  rewrite H; [reflexivity|].
  intros c Hc. injection Hc as <-. simpl. intuition discriminate.
Defined.

(** Step 1 can be run again without effect: a second run, at any times,
    updates no row, so the table comes out identical, [updated_at]
    included. *)
Theorem remap_company_ids_idempotent :
  forall (t1 t2 t3 t4 s1 s2 s3 s4 : Z) (jobs : list JobRow.t),
    remap_company_ids s1 s2 s3 s4 (remap_company_ids t1 t2 t3 t4 jobs) =
    remap_company_ids t1 t2 t3 t4 jobs.
Proof.
  intros t1 t2 t3 t4 s1 s2 s3 s4 jobs.
  rewrite (remap_company_ids_map s1).
  rewrite <- (map_id (remap_company_ids t1 t2 t3 t4 jobs)) at 2.
  apply map_ext_in. intros row Hin.
  destruct (remapped_cases s1 s2 s3 s4 row)
    as [[E _] | [_ [_ [_ [_ [c0 [Hc0 Hbad]]]]]]]; [exact E|].
  exfalso. exact (remapped_valid t1 t2 t3 t4 jobs row c0 Hin Hc0 Hbad).
Qed.

Lemma filter_all {A : Type} (f : A -> bool) (l : list A) :
  (forall x, In x l -> f x = true) -> filter f l = l.
Proof.
  induction l as [|x l IH]; simpl; intros H; [reflexivity|].
  rewrite (H x (or_introl eq_refl)). f_equal. apply IH. auto.
Qed.

Lemma filter_none {A : Type} (f : A -> bool) (l : list A) :
  (forall x, In x l -> f x = false) -> filter f l = [].
Proof.
  induction l as [|x l IH]; simpl; intros H; [reflexivity|].
  rewrite (H x (or_introl eq_refl)). apply IH. auto.
Qed.

Lemma left_join_matched (jobs : list JobRow.t)
  (companies : list CompanyRow.t) (jc : JobRow.t * option CompanyRow.t) :
  In jc (left_join_companies jobs companies) ->
  fk_jobs_company_id companies (fst jc) = true ->
  JobRow.company_id (fst jc) <> None ->
  snd jc <> None.
Proof.
  unfold left_join_companies. rewrite in_flat_map.
  intros [j [_ Hin]] Hfk Hnn.
  destruct (filter _ companies) as [|m ms] eqn:Ef.
  - destruct Hin as [<- | []]. cbn [fst] in *.
    unfold fk_jobs_company_id in Hfk.
    destruct (JobRow.company_id j) as [c|]; [|congruence].
    apply existsb_exists in Hfk. destruct Hfk as [co [Hco Heq]].
    assert (Hm : In co (filter (fun c1 =>
                   where_true (option_map
                     (fun cid => (cid =? CompanyRow.id c1)%string)
                     (Some c))) companies)).
    { apply filter_In. split; [assumption|]. cbn.
      apply String.eqb_eq in Heq. subst c.
      now rewrite String.eqb_refl. }
    rewrite Ef in Hm. destruct Hm.
  - apply in_map_iff in Hin. destruct Hin as [c [<- _]]. discriminate.
Qed.

(** After step 1 the foreign key of step 2 can be added: provided the
    companies comp-001, comp-002 and comp-003 exist and every row either
    satisfied the foreign key already or carried one of the ids comp-004 to
    comp-008, every row of the re-pointed table satisfies
    [fk_jobs_company_id], and the report of step 4 counts no invalid
    reference and as many valid references as joined rows. *)
Theorem remap_company_ids_establishes_foreign_key :
  forall (t1 t2 t3 t4 : Z) (jobs : list JobRow.t)
         (companies : list CompanyRow.t),
    (forall c, In c ["comp-001"; "comp-002"; "comp-003"]%string ->
               In c (map CompanyRow.id companies)) ->
    (forall row, In row jobs ->
                 fk_jobs_company_id companies row = true
                 \/ exists c, JobRow.company_id row = Some c
                              /\ In c invalid_company_ids) ->
    let jobs' := remap_company_ids t1 t2 t3 t4 jobs in
    forallb (fk_jobs_company_id companies) jobs' = true
    /\ exists total_jobs,
         foreign_key_validation jobs' companies =
         (total_jobs, total_jobs, 0%nat).
Proof.
  intros t1 t2 t3 t4 jobs companies Hcompanies Hjobs jobs'.
  assert (Hfk : forall row, In row jobs' ->
                            fk_jobs_company_id companies row = true).
  { intros row Hin. unfold jobs' in Hin. rewrite remap_company_ids_map in *.
    apply in_map_iff in Hin. destruct Hin as [old [<- Hold]].
    destruct (remapped_cases t1 t2 t3 t4 old)
      as [[E H] | [t [c [E [Hc _]]]]]; rewrite E.
    - destruct (Hjobs old Hold) as [Hok | [c [Hc Hbad]]];
        [exact Hok | exfalso; exact (H c Hc Hbad)].
    - unfold fk_jobs_company_id. cbn.
      apply Hcompanies in Hc. apply in_map_iff in Hc.
      destruct Hc as [co [Hid Hco]].
      apply existsb_exists. exists co. split; [assumption|].
      now apply String.eqb_eq. }
  split; [now apply forallb_forall|].
  unfold foreign_key_validation.
  set (joined := filter _ (left_join_companies jobs' companies)).
  assert (Hjoined : forall jc, In jc joined -> snd jc <> None).
  { intros jc Hin. unfold joined in Hin. apply filter_In in Hin.
    destruct Hin as [Hin Hnn].
    apply (left_join_matched jobs' companies jc Hin).
    - apply Hfk. unfold left_join_companies in Hin.
      apply in_flat_map in Hin. destruct Hin as [j [Hj Hjc]].
      destruct (filter _ companies).
      + destruct Hjc as [<- | []]. exact Hj.
      + apply in_map_iff in Hjc. destruct Hjc as [c [<- _]]. exact Hj.
    - destruct (JobRow.company_id (fst jc)); [discriminate|].
      discriminate Hnn. }
  exists (List.length joined).
  rewrite filter_all, filter_none; [reflexivity| |].
  - intros jc Hin. apply Hjoined in Hin.
    destruct (snd jc); [reflexivity | congruence].
  - intros jc Hin. apply Hjoined in Hin.
    destruct (snd jc); [reflexivity | congruence].
Qed.

Lemma remap_company_ids_establishes_foreign_key_witness :
  forallb (fk_jobs_company_id SampleRows.companies)
          (remap_company_ids 1 2 3 4 SampleRows.jobs) = true
  /\ exists total_jobs,
       foreign_key_validation (remap_company_ids 1 2 3 4 SampleRows.jobs)
         SampleRows.companies = (total_jobs, total_jobs, 0%nat).
Proof.
  apply (remap_company_ids_establishes_foreign_key 1 2 3 4 SampleRows.jobs
           SampleRows.companies).
  - intros c Hc. simpl in Hc. simpl. tauto.
  - intros row [<- | [<- | [<- | [<- | []]]]].
    + left. reflexivity.
    + right. eexists. split; [reflexivity | simpl; tauto].
    + right. eexists. split; [reflexivity | simpl; tauto].
    + left. reflexivity.
Defined.

(** Step 1 keeps the [CHECK] constraints of the table: if every row
    satisfied the company-id pattern before, every row does after (the ids
    it writes match the pattern), and the same holds for the deadline and
    the applicants constraints, whose columns it does not write. *)
Theorem remap_company_ids_keeps_check_constraints :
  forall (t1 t2 t3 t4 : Z) (jobs : list JobRow.t),
    let jobs' := remap_company_ids t1 t2 t3 t4 jobs in
    (forallb chk_jobs_company_id_pattern jobs = true ->
     forallb chk_jobs_company_id_pattern jobs' = true)
    /\ (forallb chk_jobs_deadline_valid jobs = true ->
        forallb chk_jobs_deadline_valid jobs' = true)
    /\ (forallb chk_jobs_applicants_non_negative jobs = true ->
        forallb chk_jobs_applicants_non_negative jobs' = true).
Proof.
  intros t1 t2 t3 t4 jobs jobs'. unfold jobs'.
  rewrite remap_company_ids_map.
  assert (Hrow : forall row,
    (chk_jobs_company_id_pattern row = true ->
     chk_jobs_company_id_pattern (remapped t1 t2 t3 t4 row) = true)
    /\ chk_jobs_deadline_valid (remapped t1 t2 t3 t4 row) =
       chk_jobs_deadline_valid row
    /\ chk_jobs_applicants_non_negative (remapped t1 t2 t3 t4 row) =
       chk_jobs_applicants_non_negative row).
  { intros row.
    destruct (remapped_cases t1 t2 t3 t4 row)
      as [[E _] | [t [c [E [Hc _]]]]]; rewrite E.
    - repeat split; auto.
    - split; [|split; reflexivity].
      intros _. unfold chk_jobs_company_id_pattern. cbn.
      simpl in Hc. destruct Hc as [<- | [<- | [<- | []]]]; reflexivity. }
  rewrite !forallb_forall. repeat split; intros H row Hin;
    apply in_map_iff in Hin; destruct Hin as [old [<- Hold]];
    destruct (Hrow old) as [H1 [H2 H3]].
  - apply H1. now apply H.
  - rewrite H2. now apply H.
  - rewrite H3. now apply H.
Qed.

Lemma remap_company_ids_keeps_check_constraints_witness :
  forallb chk_jobs_company_id_pattern
    (remap_company_ids 1 2 3 4 SampleRows.jobs) = true.
Proof.
  exact (proj1 (remap_company_ids_keeps_check_constraints 1 2 3 4
                  SampleRows.jobs) eq_refl).
Defined.

(** The verification script counts exactly the rows that the table's
    constraints reject: its company-id check counts the rows that fail
    [chk_jobs_company_id_pattern] and its date check the rows that fail
    [chk_jobs_deadline_valid], with NULLs treated alike on both sides (a
    NULL company id, deadline or posting date is neither counted nor
    rejected).  On a table that satisfies the two constraints both counts
    are 0. *)
Theorem verification_counts_rejected_rows :
  forall jobs : list JobRow.t,
    company_id_errors jobs =
    List.length (filter (fun row => negb (chk_jobs_company_id_pattern row))
                        jobs)
    /\ date_errors jobs =
       List.length (filter (fun row => negb (chk_jobs_deadline_valid row))
                           jobs)
    /\ (forallb chk_jobs_company_id_pattern jobs = true ->
        company_id_errors jobs = 0%nat)
    /\ (forallb chk_jobs_deadline_valid jobs = true ->
        date_errors jobs = 0%nat).
Proof.
  intros jobs.
  assert (E1 : company_id_errors jobs =
               List.length
                 (filter (fun row => negb (chk_jobs_company_id_pattern row))
                         jobs)).
  { unfold company_id_errors. f_equal. apply filter_ext. intros row.
    unfold chk_jobs_company_id_pattern.
    destruct (JobRow.company_id row) as [c|]; cbn; [|reflexivity].
    destruct (matches_company_id_pattern c); reflexivity. }
  assert (E2 : date_errors jobs =
               List.length
                 (filter (fun row => negb (chk_jobs_deadline_valid row))
                         jobs)).
  { unfold date_errors. f_equal. apply filter_ext. intros row.
    unfold chk_jobs_deadline_valid.
    destruct (JobRow.application_deadline row) as [d|],
             (JobRow.posted_at row) as [p|]; cbn; try reflexivity.
    destruct (Z.leb_spec d p), (Z.ltb_spec p d); try reflexivity; lia. }
  split; [exact E1|]. split; [exact E2|]. split.
  - intros H. rewrite E1, filter_none; [reflexivity|].
    intros row Hin. rewrite forallb_forall in H. now rewrite (H row Hin).
  - intros H. rewrite E2, filter_none; [reflexivity|].
    intros row Hin. rewrite forallb_forall in H. now rewrite (H row Hin).
Qed.

Lemma verification_counts_rejected_rows_witness :
  company_id_errors SampleRows.jobs = 0%nat
  /\ date_errors SampleRows.jobs = 0%nat.
Proof.
  split.
  - exact (proj1 (proj2 (proj2 (verification_counts_rejected_rows
                                  SampleRows.jobs))) eq_refl).
  - exact (proj2 (proj2 (proj2 (verification_counts_rejected_rows
                                  SampleRows.jobs))) eq_refl).
Defined.
